(** * myLint.py: a small AST linter, embedded and verified

    The development follows src/myLint.py: the syntax tree that [ast.parse]
    returns, [ast.NodeVisitor]'s dispatch by method name, the two rule
    checkers ([SetDuplicateItemChecker], [Unused_Variable_Checker] with its
    helper [Unused_Variable_In_Scope_Checker]) and the [Linter] driver.

    Python objects that the program only compares by identity (the nodes of
    the tree) carry an identity number [nid]; Python's unordered [set] is a
    duplicate-free list whose iteration order is left open (any permutation);
    Python's insertion-ordered [dict] is an association list. *)

From Stdlib Require Import List String Ascii Bool Arith ZArith QArith Lia.
From Stdlib Require Import Permutation DecimalString.
Import ListNotations.
Local Close Scope Q_scope.
Local Open Scope string_scope.
Local Open Scope list_scope.

Set Implicit Arguments.

(** ** Constants held by [ast.Constant] *)

(** A Python float that is not NaN: its exact value, or an infinity.  No
    literal denotes NaN, so [ast.parse] never produces one. *)
Inductive pyfloat : Type :=
| Finite (q : Q)
| PosInf
| NegInf.

(** The values [ast.Constant.value] can hold after [ast.parse]. *)
Inductive constant : Type :=
| CNone
| CEllipsis
| CBool (b : bool)
| CInt (z : Z)
| CFloat (f : pyfloat)
| CComplex (re im : pyfloat)
| CStr (s : string)
| CBytes (s : string).

Definition pyfloat_eqb (a b : pyfloat) : bool :=
  match a, b with
  | Finite p, Finite q => Qeq_bool p q
  | PosInf, PosInf => true
  | NegInf, NegInf => true
  | _, _ => false
  end.

(** Python's numeric tower: [bool], [int], [float] and [complex] compare by
    numeric value ([True == 1 == 1.0 == (1+0j)]). *)
Definition numeric (c : constant) : option (pyfloat * pyfloat) :=
  match c with
  | CBool b => Some (Finite (if b then 1%Q else 0%Q), Finite 0%Q)
  | CInt z => Some (Finite (inject_Z z), Finite 0%Q)
  | CFloat f => Some (f, Finite 0%Q)
  | CComplex re im => Some (re, im)
  | _ => None
  end.

(** [a == b] on constants (with equal hashes whenever it holds, so this is
    also the equality of [set] membership). *)
Definition py_eqb (a b : constant) : bool :=
  match numeric a, numeric b with
  | Some (r1, i1), Some (r2, i2) => pyfloat_eqb r1 r2 && pyfloat_eqb i1 i2
  | None, None =>
      match a, b with
      | CNone, CNone => true
      | CEllipsis, CEllipsis => true
      | CStr s, CStr t => String.eqb s t
      | CBytes s, CBytes t => String.eqb s t
      | _, _ => false
      end
  | _, _ => false
  end.

(** ** The syntax tree *)

Inductive expr_context : Type := Load | Store | Del.

(** The class of a node.  The classes the checkers look at have a constructor
    of their own; every other [ast] class is [Other] with its class name. *)
Inductive node_kind : Type :=
| Module
| ClassDef
| FunctionDef
| Set_
| Constant (value : constant)
| Name (id : string) (ctx : expr_context)
| Other (cls : string).

(** A node: its identity, class and payload, position, and its child nodes in
    the order of [ast.iter_fields] (for [Set_] these are [elts]). *)
Local Unset Elimination Schemes.
Inductive node : Type :=
| Node (nid : nat) (kind : node_kind) (lineno col_offset : nat)
       (children : list node).

Local Set Elimination Schemes.

Definition nid (n : node) : nat := let 'Node i _ _ _ _ := n in i.
Definition kind (n : node) : node_kind := let 'Node _ k _ _ _ := n in k.
Definition lineno (n : node) : nat := let 'Node _ _ l _ _ := n in l.
Definition col_offset (n : node) : nat := let 'Node _ _ _ c _ := n in c.
Definition children (n : node) : list node := let 'Node _ _ _ _ cs := n in cs.

(** [node.__class__.__name__] *)
Definition class_name (n : node) : string :=
  match kind n with
  | Module => "Module"
  | ClassDef => "ClassDef"
  | FunctionDef => "FunctionDef"
  | Set_ => "Set"
  | Constant _ => "Constant"
  | Name _ _ => "Name"
  | Other cls => cls
  end.

(** Induction over the tree, with the children under [Forall]. *)
Section NodeInd.
Variable P : node -> Prop.
Hypothesis HNode :
  forall i k l c cs, Forall P cs -> P (Node i k l c cs).

Fixpoint node_ind' (n : node) : P n :=
  match n with
  | Node i k l c cs =>
      HNode i k l c
        ((fix all (xs : list node) : Forall P xs :=
            match xs with
            | [] => Forall_nil P
            | x :: xs' => Forall_cons x (node_ind' x) (all xs')
            end) cs)
  end.
End NodeInd.

(** Pre-order list of the nodes of a subtree. *)
Fixpoint subtree (n : node) : list node :=
  n :: flat_map subtree (children n).

(** In a parsed tree every node is an object of its own. *)
Definition unique_ids (n : node) : Prop := NoDup (map nid (subtree n)).

(** ** ast.NodeVisitor *)

(** A [visit_<Class>] method: it gets [super().generic_visit(node)] as its
    first argument, then [node] and [self]. *)
Definition handler (S : Type) : Type := (S -> S) -> node -> S -> S.

Fixpoint getattr {S : Type} (methods : list (string * handler S))
         (name : string) : option (handler S) :=
  match methods with
  | [] => None
  | (m, h) :: rest => if String.eqb m name then Some h else getattr rest name
  end.

Section NodeVisitor.
Variable S : Type.
Variable methods : list (string * handler S).

(** [NodeVisitor.visit]: look up ['visit_' + class name]; call it, or fall
    back to [generic_visit], which visits every child in field order. *)
Fixpoint visit (n : node) (self : S) : S :=
  let generic_visit :=
    fun s : S => fold_left (fun s' child => visit child s') (children n) s in
  match getattr methods ("visit_" ++ class_name n) with
  | Some h => h generic_visit n self
  | None => generic_visit self
  end.
End NodeVisitor.

(** ** Python containers *)

(** [set]: a list without repetitions; [x in s] and [s.add(x)] go through the
    element type's equality.  Iterating a set yields its elements in an order
    the program does not control. *)
Section PySet.
Variable A : Type.
Variable eqb : A -> A -> bool.

Definition pyset_mem (x : A) (s : list A) : bool :=
  existsb (fun e => eqb e x) s.

Definition pyset_add (x : A) (s : list A) : list A :=
  if pyset_mem x s then s else s ++ [x].

Definition pyset_iter (s : list A) (order : list A) : Prop :=
  Permutation s order.
End PySet.

(** [dict] with [str] keys: an association list in insertion order. *)
Section PyDict.
Variable V : Type.

Fixpoint dict_get (d : list (string * V)) (k : string) : option V :=
  match d with
  | [] => None
  | (k', v) :: rest => if String.eqb k' k then Some v else dict_get rest k
  end.

(** [k in d] *)
Definition dict_contains (d : list (string * V)) (k : string) : bool :=
  match dict_get d k with Some _ => true | None => false end.

(** [d[k] = v]: a present key keeps its place, a new key goes last. *)
Fixpoint dict_set (d : list (string * V)) (k : string) (v : V)
  : list (string * V) :=
  match d with
  | [] => [(k, v)]
  | (k', v') :: rest =>
      if String.eqb k' k then (k', v) :: rest
      else (k', v') :: dict_set rest k v
  end.
End PyDict.

(** ** Violation and Checker *)

Record Violation : Type := mkViolation { v_node : node; message : string }.

(** Tuple equality of the NamedTuple: the nodes are the same object and the
    messages are equal strings. *)
Definition violation_eqb (a b : Violation) : bool :=
  Nat.eqb (nid (v_node a)) (nid (v_node b))
  && String.eqb (message a) (message b).

Inductive checker_class : Type :=
| SetDuplicateItemChecker
| Unused_Variable_Checker.

Record Checker : Type := mkChecker {
  cls : checker_class;
  issue_code : string;
  violations : list Violation
}.

(** [Checker.__init__] *)
Definition new_checker (c : checker_class) (code : string) : Checker :=
  mkChecker c code [].

(** [self.violations.add(violation)] *)
Definition add_violation (v : Violation) (self : Checker) : Checker :=
  mkChecker (cls self) (issue_code self)
            (pyset_add violation_eqb v (violations self)).

(** The state of an [Unused_Variable_In_Scope_Checker]. *)
Record ScopeChecker : Type := mkScopeChecker {
  sc_issue_code : string;
  sc_violations : list Violation;
  unused_names : list (string * bool);
  name_nodes : list (string * node)
}.

Definition new_scope_checker (code : string) : ScopeChecker :=
  mkScopeChecker code [] [] [].

(** [Unused_Variable_In_Scope_Checker.visit_Name].  The last case is a node
    of class name "Name" without an [id]; [ast.parse] builds none. *)
Definition visit_Name : handler ScopeChecker :=
  fun _ node self =>
    match kind node with
    | Name var_name Store =>
        let self1 :=
          if dict_contains (name_nodes self) var_name then self
          else mkScopeChecker (sc_issue_code self) (sc_violations self)
                 (unused_names self)
                 (dict_set (name_nodes self) var_name node) in
        if dict_contains (unused_names self1) var_name then self1
        else mkScopeChecker (sc_issue_code self1) (sc_violations self1)
               (dict_set (unused_names self1) var_name true)
               (name_nodes self1)
    | Name var_name _ =>
        mkScopeChecker (sc_issue_code self) (sc_violations self)
          (dict_set (unused_names self) var_name false)
          (name_nodes self)
    | _ => self
    end.

Definition Unused_Variable_In_Scope_Checker_methods
  : list (string * handler ScopeChecker) :=
  [("visit_Name", visit_Name)].

(** The loop of [check_for_unused_variables] over
    [visitor.unused_names.items()].  [visitor.name_nodes[name]] is always
    present when [unused] is true (lemma [scope_visitor_has_node]). *)
Definition report_unused (visitor : ScopeChecker) (self : Checker) : Checker :=
  fold_left
    (fun (self : Checker) (item : string * bool) =>
       let (name, unused) := item in
       if unused then
         match dict_get (name_nodes visitor) name with
         | Some node =>
             add_violation (mkViolation node ("Unused variable: " ++ name)) self
         | None => self
         end
       else self)
    (unused_names visitor) self.

(** [Unused_Variable_Checker.check_for_unused_variables] *)
Definition check_for_unused_variables (self : Checker) (node : node)
  : Checker :=
  let visitor :=
    visit Unused_Variable_In_Scope_Checker_methods node
          (new_scope_checker (issue_code self)) in
  report_unused visitor self.

Definition visit_Modules : handler Checker :=
  fun generic_visit node self =>
    generic_visit (check_for_unused_variables self node).

Definition visit_ClassDef : handler Checker :=
  fun generic_visit node self =>
    generic_visit (check_for_unused_variables self node).

Definition visit_FunctionDef : handler Checker :=
  fun generic_visit node self =>
    generic_visit (check_for_unused_variables self node).

Definition Unused_Variable_Checker_methods : list (string * handler Checker) :=
  [("visit_Modules", visit_Modules);
   ("visit_ClassDef", visit_ClassDef);
   ("visit_FunctionDef", visit_FunctionDef)].

(** ** The checkers and the driver, over the host library *)

(** The exceptions that end a run: [sys.argv[1]] out of range, the source
    file not read ([open] or [read] raised), the text not parsed
    ([ast.parse] raised). *)
Inductive exn : Type := IndexError | OSError | SyntaxError.

(** How [Linter.run] and [main] end. *)
Inductive outcome : Type :=
| Returned
| Raised (e : exn).

(** Decimal text of a position, as an f-string prints an [int]. *)
Definition str_of_nat (n : nat) : string :=
  NilZero.string_of_uint (Nat.to_uint n).

Section Program.
(** [repr] of a constant ([{value!r}]). *)
Variable repr : constant -> string.
(** [open(path).read()]; [None] when it raises. *)
Variable read_file : string -> option string.
(** [ast.parse]; [None] when the text does not parse. *)
Variable parse : string -> option node.
(** [os.path.basename] *)
Variable basename : string -> string.

(** The [for element in node.elts] loop of [visit_Set], with its local
    [seen_values]. *)
Fixpoint visit_Set_loop (elts : list node) (seen_values : list constant)
         (self : Checker) : Checker :=
  match elts with
  | [] => self
  | element :: rest =>
      match kind element with
      | Constant value =>
          if pyset_mem py_eqb value seen_values then
            let violation :=
              mkViolation element
                ("Set contains duplicate item: " ++ repr value) in
            visit_Set_loop rest seen_values (add_violation violation self)
          else
            visit_Set_loop rest (pyset_add py_eqb value seen_values) self
      | _ => visit_Set_loop rest seen_values self
      end
  end.

(** [SetDuplicateItemChecker.visit_Set]: no call of [generic_visit]. *)
Definition visit_Set : handler Checker :=
  fun _ node self => visit_Set_loop (children node) [] self.

Definition SetDuplicateItemChecker_methods
  : list (string * handler Checker) :=
  [("visit_Set", visit_Set)].

(** The methods of a checker object, by its class. *)
Definition methods_of (c : checker_class) : list (string * handler Checker) :=
  match c with
  | SetDuplicateItemChecker => SetDuplicateItemChecker_methods
  | Unused_Variable_Checker => Unused_Variable_Checker_methods
  end.

(** [checker.visit(tree)] *)
Definition checker_visit (checker : Checker) (tree : node) : Checker :=
  visit (methods_of (cls checker)) tree checker.

(** One printed line of [print_violations]. *)
Definition format_line (file_name : string) (checker : Checker)
           (v : Violation) : string :=
  file_name ++ ":" ++ str_of_nat (lineno (v_node v)) ++ ":"
    ++ str_of_nat (col_offset (v_node v)) ++ ": "
    ++ issue_code checker ++ ": " ++ message v.

(** [Linter.print_violations]: one line per element of the set, in the
    set's iteration order. *)
Inductive print_violations (checker : Checker) (file_name : string)
  : list string -> Prop :=
| print_in_order : forall order,
    pyset_iter (violations checker) order ->
    print_violations checker file_name
      (map (format_line file_name checker) order).

(** The [for checker in self.checkers] loop of [run], over the checkers in
    the order the set yields them: the checkers after the loop and the
    lines printed. *)
Inductive run_checkers (tree : node) (file_name : string)
  : list Checker -> list Checker -> list string -> Prop :=
| run_checkers_done : run_checkers tree file_name [] [] []
| run_checkers_step : forall checker rest rest' printed out,
    print_violations (checker_visit checker tree) file_name printed ->
    run_checkers tree file_name rest rest' out ->
    run_checkers tree file_name (checker :: rest)
      (checker_visit checker tree :: rest') (printed ++ out).

(** [Linter.run]: how it ends, the checkers as it leaves them, and the
    lines written to standard output. *)
Inductive run (checkers : list Checker) (source_path : string)
  : outcome -> list Checker -> list string -> Prop :=
| run_unreadable :
    read_file source_path = None ->
    run checkers source_path (Raised OSError) checkers []
| run_unparsable : forall source_file,
    read_file source_path = Some source_file ->
    parse source_file = None ->
    run checkers source_path (Raised SyntaxError) checkers []
| run_parsed : forall source_file tree order checkers' out,
    read_file source_path = Some source_file ->
    parse source_file = Some tree ->
    pyset_iter checkers order ->
    run_checkers tree (basename source_path) order checkers' out ->
    run checkers source_path Returned checkers' out.

(** The checkers [main] registers. *)
Definition main_checkers : list Checker :=
  [new_checker SetDuplicateItemChecker "W001";
   new_checker Unused_Variable_Checker "W002"].

(** [main], from [sys.argv]. *)
Inductive main : list string -> outcome -> list string -> Prop :=
| main_no_argument : forall argv,
    List.length argv < 2 ->
    main argv (Raised IndexError) []
| main_run : forall prog source_path rest result checkers' out,
    run main_checkers source_path result checkers' out ->
    main (prog :: source_path :: rest) result out.
End Program.

(** ** Vocabulary of the properties *)

(** [element.value] when [isinstance(element, ast.Constant)]. *)
Definition constant_value (n : node) : option constant :=
  match kind n with
  | Constant v => Some v
  | _ => None
  end.

(** Some node of [earlier] is a literal constant of a value equal to [v]. *)
Definition occurs_among (earlier : list node) (v : constant) : bool :=
  existsb (fun e => match constant_value e with
                    | Some w => py_eqb w v
                    | None => false
                    end) earlier.

(** Element [i] of a set literal is a literal constant and not the first
    occurrence of its value in written order. *)
Definition later_occurrence (elts : list node) (i : nat) : bool :=
  match nth_error elts i with
  | Some e =>
      match constant_value e with
      | Some v => occurs_among (firstn i elts) v
      | None => false
      end
  | None => false
  end.

(** The elements of a set literal that are later occurrences, in written
    order. *)
Definition later_occurrences (elts : list node) : list node :=
  flat_map (fun i => if later_occurrence elts i
                     then match nth_error elts i with
                          | Some e => [e]
                          | None => []
                          end
                     else [])
           (seq 0 (List.length elts)).

(** The same elements, found in one pass that carries the elements already
    passed. *)
Fixpoint flagged_after (earlier rest : list node) : list node :=
  match rest with
  | [] => []
  | e :: rest' =>
      (match constant_value e with
       | Some v => if occurs_among earlier v then [e] else []
       | None => []
       end) ++ flagged_after (earlier ++ [e]) rest'
  end.

(** The literal constants of a set literal have pairwise different values:
    no constant element is equal to a constant element after it. *)
Fixpoint pairwise_distinct (elts : list node) : bool :=
  match elts with
  | [] => true
  | e :: rest =>
      match constant_value e with
      | Some v =>
          negb (existsb (fun e' => match constant_value e' with
                                   | Some w => py_eqb v w
                                   | None => false
                                   end) rest)
      | None => true
      end && pairwise_distinct rest
  end.

(** The Violation [visit_Set] builds for a duplicate element. *)
Definition duplicate_violation (repr : constant -> string) (element : node)
  : list Violation :=
  match constant_value element with
  | Some value =>
      [mkViolation element ("Set contains duplicate item: " ++ repr value)]
  | None => []
  end.

(** Adding a sequence of violations to a checker's set, one after another. *)
Definition add_violations (vs : list Violation) (self : Checker) : Checker :=
  fold_left (fun s v => add_violation v s) vs self.

(** Membership in a violation set, by the set's own equality. *)
Definition reported (v : Violation) (self : Checker) : bool :=
  pyset_mem violation_eqb v (violations self).

(** A list is a well-built set: no two entries are equal. *)
Fixpoint pyset_ok (A : Type) (eqb : A -> A -> bool) (s : list A) : bool :=
  match s with
  | [] => true
  | x :: rest => negb (existsb (fun e => eqb x e) rest) && pyset_ok eqb rest
  end.

(** [m] is an occurrence of name [x] in a write context. *)
Definition stores (x : string) (m : node) : bool :=
  match kind m with
  | Name y Store => String.eqb y x
  | _ => false
  end.

(** [m] is an occurrence of name [x] in a context other than write. *)
Definition uses (x : string) (m : node) : bool :=
  match kind m with
  | Name y Store => false
  | Name y _ => String.eqb y x
  | _ => false
  end.

(** The first write occurrence of [x] in a subtree, in traversal order. *)
Definition first_store (x : string) (n : node) : option node :=
  find (stores x) (subtree n).

(** The nodes at which the scope tracker runs [visit_Name], in order: it
    does not descend below a node of class "Name". *)
Fixpoint name_occurrences (n : node) : list node :=
  if String.eqb (class_name n) "Name" then [n]
  else flat_map name_occurrences (children n).

(** The tracker's run over a sequence of name nodes. *)
Definition visit_names (l : list node) (self : ScopeChecker) : ScopeChecker :=
  fold_left (fun s m => visit_Name (fun s' => s') m s) l self.

(** The Violations that [check_for_unused_variables] builds from a finished
    tracker, in the order of its loop. *)
Definition unused_violations (visitor : ScopeChecker) : list Violation :=
  flat_map
    (fun item : string * bool =>
       let (name, unused) := item in
       if unused then
         match dict_get (name_nodes visitor) name with
         | Some node => [mkViolation node ("Unused variable: " ++ name)]
         | None => []
         end
       else [])
    (unused_names visitor).

(** The finished tracker of one scope node. *)
Definition scope_visitor (code : string) (n : node) : ScopeChecker :=
  visit Unused_Variable_In_Scope_Checker_methods n (new_scope_checker code).

(** [Unused_Variable_Checker] has a handler for the class of [n]. *)
Definition triggers (n : node) : bool :=
  match getattr Unused_Variable_Checker_methods ("visit_" ++ class_name n) with
  | Some _ => true
  | None => false
  end.

(** The nodes of a tree at which the unused-variable analysis runs. *)
Definition analysed_nodes (tree : node) : list node :=
  filter triggers (subtree tree).

(** A class or a function definition. *)
Definition is_scope (n : node) : bool :=
  match kind n with
  | ClassDef | FunctionDef => true
  | _ => false
  end.

(** The nodes of a scope that belong to no scope nested in it. *)
Fixpoint own_nodes (n : node) : list node :=
  n :: flat_map (fun c => if is_scope c then [] else own_nodes c) (children n).

(** The shape [ast.parse] gives: names and constants are leaves, and an
    [Other] node is of none of the classes with a constructor. *)
Definition node_ok (m : node) : bool :=
  match kind m with
  | Name _ _ | Constant _ =>
      match children m with [] => true | _ => false end
  | Other c =>
      negb (existsb (String.eqb c)
              ["Module"; "ClassDef"; "FunctionDef"; "Set"; "Constant"; "Name"])
  | _ => true
  end.

Definition parsed_shape (n : node) : Prop :=
  forallb node_ok (subtree n) = true.

(** ** Concrete host functions and sources *)

Module Samples.

(** [repr] on [int], [bool], [None], [Ellipsis], and on [str] and [bytes]
    made of plain printable characters without quotes or backslashes;
    floats and complex numbers are not printed. *)
Definition repr (c : constant) : string :=
  match c with
  | CNone => "None"
  | CEllipsis => "Ellipsis"
  | CBool true => "True"
  | CBool false => "False"
  | CInt z => NilZero.string_of_int (Z.to_int z)
  | CStr s => "'" ++ s ++ "'"
  | CBytes s => "b'" ++ s ++ "'"
  | CFloat _ | CComplex _ _ => ""
  end.

Fixpoint after_last_slash (p acc : string) : string :=
  match p with
  | EmptyString => acc
  | String c r =>
      if Ascii.eqb c "/" then after_last_slash r ""
      else after_last_slash r (acc ++ String c "")
  end.

(** [posixpath.basename] *)
Definition basename (p : string) : string := after_last_slash p "".

Definition int (i : nat) (z : Z) (l c : nat) : node :=
  Node i (Constant (CInt z)) l c [].
Definition name (i : nat) (x : string) (ctx : expr_context) (l c : nat)
  : node :=
  Node i (Name x ctx) l c [].

(** [s = {1, 2, 2, 3, 1}] *)
Definition dups_set : node :=
  Node 3 Set_ 1 4
    [int 4 1 1 5; int 5 2 1 8; int 6 2 1 11; int 7 3 1 14; int 8 1 1 17].
Definition dups_tree : node :=
  Node 0 Module 0 0
    [Node 1 (Other "Assign") 1 0 [name 2 "s" Store 1 0; dups_set]].

(** [{1, 2, 3}] *)
Definition distinct_set : node :=
  Node 2 Set_ 1 0 [int 3 1 1 1; int 4 2 1 4; int 5 3 1 7].
Definition distinct_tree : node :=
  Node 0 Module 0 0 [Node 1 (Other "Expr") 1 0 [distinct_set]].

(** [{len({1, 1}), 2}] *)
Definition inner_set : node :=
  Node 5 Set_ 1 5 [int 6 1 1 6; int 7 1 1 9].
Definition inner_call : node :=
  Node 3 (Other "Call") 1 1 [name 4 "len" Load 1 1; inner_set].
Definition outer_set : node :=
  Node 2 Set_ 1 0 [inner_call; int 8 2 1 14].
Definition inner_set_tree : node :=
  Node 0 Module 0 0 [Node 1 (Other "Expr") 1 0 [outer_set]].

(** [x = 1] at module level *)
Definition module_tree : node :=
  Node 0 Module 0 0
    [Node 1 (Other "Assign") 1 0 [name 2 "x" Store 1 0; int 3 1 1 4]].

(** [def f():] / [x = 1] / [y = 2] / [return y] *)
Definition unused_def : node :=
  Node 1 FunctionDef 1 0
    [Node 2 (Other "arguments") 0 0 [];
     Node 3 (Other "Assign") 2 4 [name 4 "x" Store 2 4; int 5 1 2 8];
     Node 6 (Other "Assign") 3 4 [name 7 "y" Store 3 4; int 8 2 3 8];
     Node 9 (Other "Return") 4 4 [name 10 "y" Load 4 11]].
Definition unused_tree : node := Node 0 Module 0 0 [unused_def].

(** [def outer():] / [x = 1] / [def inner():] / [x = 2] / [print(x)] *)
Definition inner_def : node :=
  Node 6 FunctionDef 3 4
    [Node 7 (Other "arguments") 0 0 [];
     Node 8 (Other "Assign") 4 8 [name 9 "x" Store 4 8; int 10 2 4 12];
     Node 11 (Other "Expr") 5 8
       [Node 12 (Other "Call") 5 8
          [name 13 "print" Load 5 8; name 14 "x" Load 5 14]]].
Definition outer_write : node := name 4 "x" Store 2 4.
Definition outer_def : node :=
  Node 1 FunctionDef 1 0
    [Node 2 (Other "arguments") 0 0 [];
     Node 3 (Other "Assign") 2 4 [outer_write; int 5 1 2 8];
     inner_def].
Definition nested_tree : node := Node 0 Module 0 0 [outer_def].

(** [def f():] / [x = 1] and, beside it, [def g():] / [x = 2] /
    [print(x)] *)
Definition f_write : node := name 4 "x" Store 2 4.
Definition f_def : node :=
  Node 1 FunctionDef 1 0
    [Node 2 (Other "arguments") 0 0 [];
     Node 3 (Other "Assign") 2 4 [f_write; int 5 1 2 8]].
Definition g_def : node :=
  Node 6 FunctionDef 4 0
    [Node 7 (Other "arguments") 0 0 [];
     Node 8 (Other "Assign") 5 4 [name 9 "x" Store 5 4; int 10 2 5 8];
     Node 11 (Other "Expr") 6 4
       [Node 12 (Other "Call") 6 4
          [name 13 "print" Load 6 4; name 14 "x" Load 6 10]]].
Definition siblings_tree : node := Node 0 Module 0 0 [f_def; g_def].

(** Source texts, the files that hold them, and what [ast.parse] makes of
    them; "def (" does not parse. *)
Definition lf : string := String (ascii_of_nat 10) "".

Definition dups_source : string := "s = {1, 2, 2, 3, 1}" ++ lf.
Definition module_source : string := "x = 1" ++ lf.
Definition broken_source : string := "def (" ++ lf.

Definition files : list (string * string) :=
  [("src/dups.py", dups_source);
   ("src/module.py", module_source);
   ("src/broken.py", broken_source)].

Definition read_file (path : string) : option string := dict_get files path.

Definition parse (source : string) : option node :=
  dict_get [(dups_source, dups_tree); (module_source, module_tree)] source.

(** The two lines the linter prints for [src/dups.py]. *)
Definition dups_line_2 : string :=
  "dups.py:1:11: W001: Set contains duplicate item: 2".
Definition dups_line_1 : string :=
  "dups.py:1:17: W001: Set contains duplicate item: 1".

End Samples.

(** Every line a checker has to print, one per violation. *)
Definition lines_of (file_name : string) (checker : Checker) : list string :=
  map (format_line file_name checker) (violations checker).

(** ** Vocabulary of the further properties *)

(** The set literals at which a traversal runs [visit_Set]: those that lie
    inside no other set literal. *)
Fixpoint visited_sets (n : node) : list node :=
  if String.eqb (class_name n) "Set" then [n]
  else flat_map visited_sets (children n).

(** The Violations [visit_Set] builds at one set literal. *)
Definition set_report (repr : constant -> string) (s : node)
  : list Violation :=
  flat_map (duplicate_violation repr) (later_occurrences (children s)).

(** The Violations a traversal by a checker of class [c] and issue code
    [code] builds, in the order it adds them. *)
Definition traversal_report (repr : constant -> string) (c : checker_class)
           (code : string) (tree : node) : list Violation :=
  match c with
  | SetDuplicateItemChecker => flat_map (set_report repr) (visited_sets tree)
  | Unused_Variable_Checker =>
      flat_map (fun s => unused_violations (scope_visitor code s))
               (analysed_nodes tree)
  end.

(** [isinstance(element, ast.Constant)] *)
Definition is_constant (n : node) : bool :=
  match constant_value n with
  | Some _ => true
  | None => false
  end.

Module MoreSamples.

(** [def outer():] / [def inner():] / [x = 1] *)
Definition inner_write : node := Samples.name 6 "x" Store 3 8.
Definition inner_def : node :=
  Node 3 FunctionDef 2 4
    [Node 4 (Other "arguments") 0 0 [];
     Node 5 (Other "Assign") 3 8 [inner_write; Samples.int 7 1 3 12]].
Definition outer_def : node :=
  Node 1 FunctionDef 1 0 [Node 2 (Other "arguments") 0 0 []; inner_def].
Definition inner_only_tree : node := Node 0 Module 0 0 [outer_def].

(** [{True, 1, 1.0}] *)
Definition mixed_set : node :=
  Node 2 Set_ 1 0
    [Node 3 (Constant (CBool true)) 1 1 [];
     Samples.int 4 1 1 7;
     Node 5 (Constant (CFloat (Finite 1%Q))) 1 10 []].

(** [{a, a, 1}] *)
Definition names_set : node :=
  Node 2 Set_ 1 0
    [Samples.name 3 "a" Load 1 1; Samples.name 4 "a" Load 1 4;
     Samples.int 5 1 1 7].

(** A checker that holds a violation from an earlier run. *)
Definition stale : Violation :=
  mkViolation (Samples.int 9 7 3 2) "Set contains duplicate item: 7".
Definition used_checker : Checker :=
  mkChecker SetDuplicateItemChecker "W001" [stale].

End MoreSamples.

(** * Proofs *)

(** ** Equality of constants *)

Lemma pyfloat_eqb_trans a b c :
  pyfloat_eqb a b = true -> pyfloat_eqb b c = true -> pyfloat_eqb a c = true.
Proof.
  destruct a, b, c; simpl; try discriminate; auto.
  apply Qeq_bool_trans.
Qed.

Lemma py_eqb_trans a b c :
  py_eqb a b = true -> py_eqb b c = true -> py_eqb a c = true.
Proof.
  unfold py_eqb.
  destruct (numeric a) as [[ra ia]|] eqn:Ha;
    destruct (numeric b) as [[rb ib]|] eqn:Hb; try discriminate;
    destruct (numeric c) as [[rc ic]|] eqn:Hc; try discriminate.
  - rewrite !andb_true_iff. intros [H1 H2] [H3 H4]. split.
    + eapply pyfloat_eqb_trans; eassumption.
    + eapply pyfloat_eqb_trans; eassumption.
  - destruct a; try discriminate; destruct b; try discriminate;
      destruct c; try discriminate; auto;
      rewrite !String.eqb_eq; congruence.
Qed.

(** ** Sets and dictionaries *)

Lemma pyset_mem_app (A : Type) (eqb : A -> A -> bool) x (s t : list A) :
  pyset_mem eqb x (s ++ t) = pyset_mem eqb x s || pyset_mem eqb x t.
Proof. unfold pyset_mem. apply existsb_app. Qed.

Lemma pyset_mem_snoc (A : Type) (eqb : A -> A -> bool) x y (s : list A) :
  pyset_mem eqb x (s ++ [y]) = pyset_mem eqb x s || eqb y x.
Proof.
  rewrite pyset_mem_app. unfold pyset_mem at 2. simpl.
  now rewrite orb_false_r.
Qed.

(** ** The traversal *)

Lemma visit_unfold (S : Type) (methods : list (string * handler S)) n self :
  visit methods n self =
  match getattr methods ("visit_" ++ class_name n) with
  | Some h =>
      h (fun s => fold_left (fun s' c => visit methods c s') (children n) s)
        n self
  | None => fold_left (fun s' c => visit methods c s') (children n) self
  end.
Proof. destruct n; reflexivity. Qed.

(** ** SetDuplicateItemChecker *)

Lemma add_violations_app vs ws self :
  add_violations (vs ++ ws) self = add_violations ws (add_violations vs self).
Proof. unfold add_violations. apply fold_left_app. Qed.

Section SetDuplicates.
Variable repr : constant -> string.

Lemma visit_Set_loop_flagged :
  forall rest earlier seen self,
    (forall u, pyset_mem py_eqb u seen = occurs_among earlier u) ->
    visit_Set_loop repr rest seen self =
    add_violations
      (flat_map (duplicate_violation repr) (flagged_after earlier rest))
      self.
Proof.
  induction rest as [|e rest IH]; intros earlier seen self Hinv.
  - reflexivity.
  - cbn [visit_Set_loop flagged_after].
    rewrite flat_map_app, add_violations_app.
    unfold duplicate_violation at 1, constant_value.
    assert (Hsame : forall seen',
               (forall u, pyset_mem py_eqb u seen' = occurs_among earlier u) ->
               constant_value e = None ->
               forall u, pyset_mem py_eqb u seen'
                         = occurs_among (earlier ++ [e]) u).
    { intros seen' H' Hc u. unfold occurs_among. rewrite existsb_app.
      cbn [existsb]. rewrite Hc. rewrite !orb_false_r. apply H'. }
    destruct (kind e) as [ | | | |value| | ] eqn:Hk;
      try (cbn; apply IH; apply Hsame; [exact Hinv|];
           unfold constant_value; now rewrite Hk).
    assert (Hc : constant_value e = Some value)
      by (unfold constant_value; now rewrite Hk).
    rewrite (Hinv value).
    destruct (occurs_among earlier value) eqn:Hocc.
    + cbn [flat_map app]. unfold duplicate_violation at 1. rewrite Hc.
      cbn [app add_violations fold_left].
      apply IH. intro u. unfold occurs_among. rewrite existsb_app.
      cbn [existsb]. rewrite Hc, orb_false_r.
      fold (occurs_among earlier u). rewrite Hinv.
      destruct (py_eqb value u) eqn:Hvu; [|now rewrite orb_false_r].
      rewrite orb_true_r.
      unfold occurs_among in Hocc |- *.
      apply existsb_exists in Hocc. destruct Hocc as [e' [Hin He']].
      apply existsb_exists. exists e'. split; [exact Hin|].
      destruct (constant_value e') as [w|]; [|discriminate].
      eapply py_eqb_trans; eassumption.
    + cbn [flat_map app add_violations fold_left].
      apply IH. intro u. unfold pyset_add.
      rewrite (Hinv value), Hocc, pyset_mem_snoc.
      unfold occurs_among. rewrite existsb_app. cbn [existsb].
      rewrite Hc, orb_false_r. fold (occurs_among earlier u).
      now rewrite Hinv.
Qed.
End SetDuplicates.

Lemma later_occurrences_from :
  forall rest earlier,
    flat_map (fun i => if later_occurrence (earlier ++ rest) i
                       then match nth_error (earlier ++ rest) i with
                            | Some e => [e]
                            | None => []
                            end
                       else [])
             (seq (List.length earlier) (List.length rest))
    = flagged_after earlier rest.
Proof.
  induction rest as [|e rest IH]; intro earlier.
  - reflexivity.
  - cbn [List.length seq flat_map flagged_after].
    assert (Hnth : nth_error (earlier ++ e :: rest) (List.length earlier)
                   = Some e).
    { rewrite nth_error_app2 by lia. now rewrite Nat.sub_diag. }
    assert (Hfirst : firstn (List.length earlier) (earlier ++ e :: rest)
                     = earlier).
    { rewrite firstn_app, Nat.sub_diag, firstn_all. cbn. apply app_nil_r. }
    unfold later_occurrence at 1. rewrite Hnth, Hfirst.
    f_equal.
    + destruct (constant_value e) as [v|]; [|reflexivity].
      now destruct (occurs_among earlier v).
    + specialize (IH (earlier ++ [e])).
      rewrite <- app_assoc in IH. cbn [app] in IH.
      rewrite length_app in IH. cbn [List.length] in IH.
      rewrite Nat.add_1_r in IH. exact IH.
Qed.

Lemma later_occurrences_flagged elts :
  later_occurrences elts = flagged_after [] elts.
Proof. exact (later_occurrences_from elts []). Qed.

Lemma flagged_head earlier x e :
  In e (match constant_value x with
        | Some v => if occurs_among earlier v then [x] else []
        | None => []
        end) ->
  e = x /\ exists v, kind e = Constant v.
Proof.
  unfold constant_value. destruct (kind x) eqn:Hk; cbn; try tauto.
  destruct (occurs_among earlier value); cbn; [|tauto].
  intros [H|[]]. subst. eauto.
Qed.

Lemma flagged_after_incl :
  forall rest earlier e, In e (flagged_after earlier rest) -> In e rest.
Proof.
  induction rest as [|x rest IH]; intros earlier e H; [exact H|].
  cbn [flagged_after] in H. apply in_app_or in H. destruct H as [H|H].
  - left. apply flagged_head in H. symmetry. apply H.
  - right. eapply IH; exact H.
Qed.

Lemma flagged_after_constant :
  forall rest earlier e,
    In e (flagged_after earlier rest) -> exists v, kind e = Constant v.
Proof.
  induction rest as [|x rest IH]; intros earlier e H; [destruct H|].
  cbn [flagged_after] in H. apply in_app_or in H. destruct H as [H|H].
  - apply flagged_head in H. apply H.
  - eapply IH; exact H.
Qed.

Lemma flagged_after_NoDup :
  forall rest earlier,
    NoDup (map nid rest) -> NoDup (map nid (flagged_after earlier rest)).
Proof.
  induction rest as [|x rest IH]; intros earlier H; [constructor|].
  cbn [flagged_after]. inversion H as [|? ? Hx Hrest]; subst.
  assert (Htail : NoDup (map nid (flagged_after (earlier ++ [x]) rest)))
    by (apply IH; exact Hrest).
  assert (Hfresh : ~ In (nid x)
                     (map nid (flagged_after (earlier ++ [x]) rest))).
  { intro Hin. apply Hx. apply in_map_iff in Hin.
    destruct Hin as [y [Hy Hin]]. apply in_map_iff. exists y. split; auto.
    eapply flagged_after_incl; exact Hin. }
  destruct (constant_value x); [|exact Htail].
  destruct (occurs_among earlier c); [|exact Htail].
  cbn. constructor; assumption.
Qed.

Lemma existsb_false_in (A : Type) (f : A -> bool) (l : list A) :
  existsb f l = false -> forall x, In x l -> f x = false.
Proof.
  intros H x Hin. destruct (f x) eqn:Hx; [|reflexivity].
  rewrite <- H. symmetry. apply existsb_exists. eauto.
Qed.

Lemma pairwise_distinct_flagged :
  forall rest earlier,
    pairwise_distinct rest = true ->
    (forall e v, In e rest -> constant_value e = Some v ->
                 occurs_among earlier v = false) ->
    flagged_after earlier rest = [].
Proof.
  induction rest as [|e rest IH]; intros earlier Hd Hfresh; [reflexivity|].
  cbn [flagged_after pairwise_distinct] in *.
  apply andb_true_iff in Hd. destruct Hd as [Hhead Htail].
  rewrite IH.
  - destruct (constant_value e) as [v|] eqn:Hv; [|reflexivity].
    now rewrite (Hfresh e v (or_introl eq_refl) Hv).
  - exact Htail.
  - intros e' w Hin Hw. unfold occurs_among. rewrite existsb_app.
    fold (occurs_among earlier w).
    rewrite (Hfresh e' w (or_intror Hin) Hw). cbn.
    destruct (constant_value e) as [v|]; [|reflexivity].
    rewrite orb_false_r. apply negb_true_iff in Hhead.
    pose proof (existsb_false_in _ _ Hhead e' Hin) as Hfalse.
    cbn beta in Hfalse. now rewrite Hw in Hfalse.
Qed.

Lemma pairwise_distinct_no_later elts :
  pairwise_distinct elts = true -> later_occurrences elts = [].
Proof.
  intro Hd. rewrite later_occurrences_flagged.
  apply pairwise_distinct_flagged; [exact Hd|reflexivity].
Qed.

(** Adding violations on nodes that are new to the set and differ from one
    another appends them. *)
Lemma add_violations_fresh :
  forall vs self,
    NoDup (map (fun v => nid (v_node v)) vs) ->
    (forall v u, In v vs -> In u (violations self) ->
                 nid (v_node u) <> nid (v_node v)) ->
    violations (add_violations vs self) = violations self ++ vs.
Proof.
  induction vs as [|v vs IH]; intros self Hnd Hfresh.
  - cbn. now rewrite app_nil_r.
  - cbn [add_violations fold_left]. fold (add_violations vs (add_violation v self)).
    inversion Hnd as [|? ? Hv Hvs]; subst.
    assert (Hmem : pyset_mem violation_eqb v (violations self) = false).
    { unfold pyset_mem. apply not_true_is_false. intro H.
      apply existsb_exists in H. destruct H as [u [Hu He]].
      unfold violation_eqb in He. apply andb_true_iff in He.
      destruct He as [He _]. apply Nat.eqb_eq in He.
      exact (Hfresh v u (or_introl eq_refl) Hu He). }
    rewrite IH.
    + cbn [add_violation violations]. unfold pyset_add. rewrite Hmem.
      now rewrite <- app_assoc.
    + exact Hvs.
    + intros w u Hw Hu. cbn [add_violation violations] in Hu.
      unfold pyset_add in Hu. rewrite Hmem in Hu.
      apply in_app_or in Hu. destruct Hu as [Hu|[Hu|[]]].
      * apply Hfresh; [now right|exact Hu].
      * subst u. intro Heq. apply Hv. rewrite Heq.
        apply (in_map (fun v => nid (v_node v))). exact Hw.
Qed.

Lemma duplicate_violations_shape (repr : constant -> string) :
  forall l,
    (forall e, In e l -> exists v, kind e = Constant v) ->
    Forall2 (fun e v =>
               exists value,
                 kind e = Constant value /\
                 v = mkViolation e
                       ("Set contains duplicate item: " ++ repr value))
            l (flat_map (duplicate_violation repr) l).
Proof.
  induction l as [|e l IH]; intro H; [constructor|].
  destruct (H e (or_introl eq_refl)) as [value Hk].
  cbn [flat_map]. unfold duplicate_violation at 1, constant_value.
  rewrite Hk. cbn [app]. constructor.
  - exists value. split; [exact Hk|reflexivity].
  - apply IH. intros e' He'. apply H. now right.
Qed.

Lemma duplicate_violations_ids (repr : constant -> string) :
  forall l,
    map (fun v => nid (v_node v)) (flat_map (duplicate_violation repr) l)
    = map nid (filter (fun e => match constant_value e with
                                | Some _ => true
                                | None => false
                                end) l).
Proof.
  induction l as [|e l IH]; [reflexivity|].
  cbn [flat_map filter]. rewrite map_app, IH.
  unfold duplicate_violation. now destruct (constant_value e).
Qed.

Lemma checker_visit_Set (repr : constant -> string) n self :
  kind n = Set_ -> cls self = SetDuplicateItemChecker ->
  checker_visit repr self n = visit_Set_loop repr (children n) [] self.
Proof.
  intros Hk Hc. unfold checker_visit. rewrite visit_unfold.
  unfold class_name. rewrite Hk, Hc. reflexivity.
Qed.

(** C1.  On a set literal, SetDuplicateItemChecker adds to its violations
    one Violation for each element that is a literal constant and not the
    first occurrence of its value in written order, and nothing else; the
    Violation is attached to that later element and its message is
    "Set contains duplicate item: " followed by the value's repr.  With every
    element an object of its own and a fresh checker the set holds exactly
    these Violations, one each; with pairwise distinct constant values the
    checker is left as it was. *)
Theorem C1_set_duplicates :
  forall (repr : constant -> string) (n : node) (self : Checker),
    kind n = Set_ ->
    cls self = SetDuplicateItemChecker ->
    let flagged := later_occurrences (children n) in
    let built := flat_map (duplicate_violation repr) flagged in
    checker_visit repr self n = add_violations built self
    /\ Forall2 (fun e v =>
                  exists value,
                    kind e = Constant value /\
                    v = mkViolation e
                          ("Set contains duplicate item: " ++ repr value))
               flagged built
    /\ (NoDup (map nid (children n)) -> violations self = [] ->
        violations (checker_visit repr self n) = built)
    /\ (pairwise_distinct (children n) = true ->
        checker_visit repr self n = self).
Proof.
  intros repr n self Hk Hc flagged built.
  assert (Hrun : checker_visit repr self n = add_violations built self).
  { rewrite (checker_visit_Set repr n self Hk Hc).
    rewrite (visit_Set_loop_flagged repr (children n) [] [] self)
      by reflexivity.
    unfold built, flagged. now rewrite later_occurrences_flagged. }
  split; [exact Hrun|]. split; [|split].
  - apply duplicate_violations_shape. intros e He.
    unfold flagged in He. rewrite later_occurrences_flagged in He.
    eapply flagged_after_constant; exact He.
  - intros Hnd Hempty. rewrite Hrun, add_violations_fresh.
    + now rewrite Hempty.
    + unfold built. rewrite duplicate_violations_ids.
      assert (Hf : NoDup (map nid flagged)).
      { unfold flagged. rewrite later_occurrences_flagged.
        apply flagged_after_NoDup. exact Hnd. }
      revert Hf. generalize flagged. intro l.
      induction l as [|e l IH]; intro Hf; [constructor|].
      cbn [filter]. inversion Hf as [|? ? Hx Hl]; subst.
      destruct (constant_value e); [|now apply IH].
      cbn [map]. constructor; [|now apply IH].
      intro Hin. apply Hx. apply in_map_iff in Hin.
      destruct Hin as [y [Hy Hin]]. apply filter_In in Hin.
      apply in_map_iff. exists y. tauto.
    + rewrite Hempty. intros v u _ [].
  - intro Hd. rewrite Hrun. unfold built, flagged.
    now rewrite pairwise_distinct_no_later.
Qed.

Lemma C1_set_duplicates_witness :
  violations (checker_visit Samples.repr
                (new_checker SetDuplicateItemChecker "W001")
                Samples.dups_set)
  = [mkViolation (Samples.int 6 2 1 11) "Set contains duplicate item: 2";
     mkViolation (Samples.int 8 1 1 17) "Set contains duplicate item: 1"]
  /\ checker_visit Samples.repr
       (new_checker SetDuplicateItemChecker "W001") Samples.distinct_set
     = new_checker SetDuplicateItemChecker "W001".
Proof.
  split.
  - refine (eq_trans
              (proj1 (proj2 (proj2
                 (C1_set_duplicates Samples.repr Samples.dups_set
                    (new_checker SetDuplicateItemChecker "W001")
                    eq_refl eq_refl))) _ eq_refl) _).
    + cbn. repeat constructor; cbn; intuition discriminate.
    + reflexivity.
  - apply (proj2 (proj2 (proj2
             (C1_set_duplicates Samples.repr Samples.distinct_set
                (new_checker SetDuplicateItemChecker "W001")
                eq_refl eq_refl)))).
    reflexivity.
Defined.

(** ** Dictionaries *)

Lemma dict_get_set (V : Type) (d : list (string * V)) k v k' :
  dict_get (dict_set d k v) k'
  = if String.eqb k k' then Some v else dict_get d k'.
Proof.
  induction d as [|[k0 v0] d IH]; cbn [dict_set dict_get].
  - reflexivity.
  - destruct (String.eqb_spec k0 k) as [->|Hne]; cbn [dict_get].
    + destruct (String.eqb k k'); reflexivity.
    + rewrite IH. destruct (String.eqb_spec k0 k') as [->|Hne'];
        [|reflexivity].
      destruct (String.eqb_spec k k') as [->|_]; [|reflexivity].
      now elim Hne.
Qed.

Lemma dict_get_None_keys (V : Type) (d : list (string * V)) k :
  dict_get d k = None <-> ~ In k (map fst d).
Proof.
  induction d as [|[k0 v0] d IH]; cbn [dict_get map fst In].
  - tauto.
  - destruct (String.eqb_spec k0 k) as [->|Hne].
    + split; [discriminate|]. intro H. elim H. now left.
    + rewrite IH. tauto.
Qed.

Lemma dict_set_keys (V : Type) (d : list (string * V)) k v :
  map fst (dict_set d k v)
  = if dict_contains d k then map fst d else map fst d ++ [k].
Proof.
  unfold dict_contains.
  induction d as [|[k0 v0] d IH]; cbn [dict_set dict_get map fst].
  - reflexivity.
  - destruct (String.eqb_spec k0 k) as [->|Hne]; [reflexivity|].
    cbn [map fst]. rewrite IH. now destruct (dict_get d k).
Qed.

Lemma dict_set_NoDup (V : Type) (d : list (string * V)) k v :
  NoDup (map fst d) -> NoDup (map fst (dict_set d k v)).
Proof.
  intro H. rewrite dict_set_keys. unfold dict_contains.
  destruct (dict_get d k) eqn:Hg; [exact H|].
  apply dict_get_None_keys in Hg.
  apply NoDup_app; [exact H|repeat constructor; intros []|].
  intros a Ha [Hk|[]]. subst. contradiction.
Qed.

(** ** The scope tracker *)

Lemma append_eqb (p a b : string) :
  String.eqb (p ++ a) (p ++ b) = String.eqb a b.
Proof.
  induction p as [|c p IH]; cbn; [reflexivity|].
  now rewrite Ascii.eqb_refl.
Qed.

Lemma visit_names_app l1 l2 self :
  visit_names (l1 ++ l2) self = visit_names l2 (visit_names l1 self).
Proof. unfold visit_names. apply fold_left_app. Qed.

Lemma scope_visit_names :
  forall n self,
    visit Unused_Variable_In_Scope_Checker_methods n self
    = visit_names (name_occurrences n) self.
Proof.
  induction n as [i k l c cs IH] using node_ind'. intro self.
  rewrite visit_unfold.
  change (getattr Unused_Variable_In_Scope_Checker_methods
            ("visit_" ++ class_name (Node i k l c cs)))
    with (if String.eqb ("visit_" ++ "Name")
                        ("visit_" ++ class_name (Node i k l c cs))
          then Some visit_Name else None).
  rewrite append_eqb, String.eqb_sym.
  cbn [name_occurrences].
  destruct (String.eqb (class_name (Node i k l c cs)) "Name").
  - reflexivity.
  - cbn [children]. revert self.
    induction IH as [|x xs Hx Hxs IHxs]; intro self; [reflexivity|].
    cbn [fold_left flat_map]. rewrite visit_names_app, <- Hx. apply IHxs.
Qed.

Lemma visit_Name_unused x m g self :
  dict_get (unused_names (visit_Name g m self)) x
  = if uses x m then Some false
    else if stores x m
         then match dict_get (unused_names self) x with
              | Some b => Some b
              | None => Some true
              end
         else dict_get (unused_names self) x.
Proof.
  unfold visit_Name, uses, stores, dict_contains.
  destruct (kind m) as [ | | | | |y ctx| ]; try reflexivity.
  destruct ctx; cbn [unused_names];
    try (rewrite dict_get_set; now destruct (String.eqb y x)).
  destruct (dict_get (name_nodes self) y); cbn [unused_names].
  - destruct (dict_get (unused_names self) y) eqn:Hy; cbn [unused_names].
    + destruct (String.eqb_spec y x) as [->|_]; [now rewrite Hy|].
      reflexivity.
    + rewrite dict_get_set.
      destruct (String.eqb_spec y x) as [->|_]; [now rewrite Hy|].
      reflexivity.
  - destruct (dict_get (unused_names self) y) eqn:Hy; cbn [unused_names].
    + destruct (String.eqb_spec y x) as [->|_]; [now rewrite Hy|].
      reflexivity.
    + rewrite dict_get_set.
      destruct (String.eqb_spec y x) as [->|_]; [now rewrite Hy|].
      reflexivity.
Qed.

Lemma visit_Name_nodes x m g self :
  dict_get (name_nodes (visit_Name g m self)) x
  = match dict_get (name_nodes self) x with
    | Some w => Some w
    | None => if stores x m then Some m else None
    end.
Proof.
  unfold visit_Name, stores, dict_contains.
  destruct (kind m) as [ | | | | |y ctx| ];
    try (now destruct (dict_get (name_nodes self) x)).
  destruct ctx; cbn [name_nodes];
    try (now destruct (dict_get (name_nodes self) x)).
  destruct (dict_get (name_nodes self) y) eqn:Hy;
    cbn [unused_names name_nodes];
    destruct (dict_get (unused_names self) y); cbn [name_nodes];
    try rewrite dict_get_set;
    (destruct (String.eqb_spec y x) as [->|_];
     [now rewrite Hy | now destruct (dict_get (name_nodes self) x)]).
Qed.

Lemma visit_Name_keys m g self :
  NoDup (map fst (unused_names self)) ->
  NoDup (map fst (unused_names (visit_Name g m self))).
Proof.
  intro H. unfold visit_Name.
  destruct (kind m) as [ | | | | |y ctx| ]; try exact H.
  destruct ctx; cbn [unused_names]; try (now apply dict_set_NoDup).
  destruct (dict_contains (name_nodes self) y); cbn [unused_names];
    destruct (dict_contains (unused_names self) y); cbn [unused_names];
    try exact H; now apply dict_set_NoDup.
Qed.

Lemma visit_names_unused x :
  forall l self,
    dict_get (unused_names (visit_names l self)) x
    = if existsb (uses x) l then Some false
      else match dict_get (unused_names self) x with
           | Some b => Some b
           | None => if existsb (stores x) l then Some true else None
           end.
Proof.
  induction l as [|m l IH]; intro self.
  - cbn. now destruct (dict_get (unused_names self) x).
  - change (visit_names (m :: l) self)
      with (visit_names l (visit_Name (fun s' => s') m self)).
    rewrite IH, visit_Name_unused. cbn [existsb].
    destruct (uses x m), (existsb (uses x) l), (stores x m),
      (dict_get (unused_names self) x), (existsb (stores x) l);
      reflexivity.
Qed.

Lemma visit_names_nodes x :
  forall l self,
    dict_get (name_nodes (visit_names l self)) x
    = match dict_get (name_nodes self) x with
      | Some w => Some w
      | None => find (stores x) l
      end.
Proof.
  induction l as [|m l IH]; intro self.
  - cbn. now destruct (dict_get (name_nodes self) x).
  - change (visit_names (m :: l) self)
      with (visit_names l (visit_Name (fun s' => s') m self)).
    rewrite IH, visit_Name_nodes. cbn [find].
    destruct (dict_get (name_nodes self) x); [reflexivity|].
    now destruct (stores x m).
Qed.

Lemma visit_names_keys :
  forall l self,
    NoDup (map fst (unused_names self)) ->
    NoDup (map fst (unused_names (visit_names l self))).
Proof.
  induction l as [|m l IH]; intros self H; [exact H|].
  change (visit_names (m :: l) self)
    with (visit_names l (visit_Name (fun s' => s') m self)).
  apply IH. now apply visit_Name_keys.
Qed.

Lemma existsb_Permutation (A : Type) (f : A -> bool) (l l' : list A) :
  Permutation l l' -> existsb f l = existsb f l'.
Proof.
  induction 1 as [|a l l' _ IH|a b l|l l' l'' _ IH1 _ IH2]; cbn.
  - reflexivity.
  - now rewrite IH.
  - now destruct (f a), (f b).
  - congruence.
Qed.

(** C5.  Within one tracker's traversal the unused flag of a name, once
    false, stays false: visiting any subtree (writes included) leaves it
    false.  So the flag a traversal ends with does not depend on the order in
    which the occurrences of the names are met. *)
Theorem C5_unused_flag_monotone :
  forall (x : string),
    (forall (n : node) (self : ScopeChecker),
        dict_get (unused_names self) x = Some false ->
        dict_get
          (unused_names (visit Unused_Variable_In_Scope_Checker_methods n self))
          x = Some false)
    /\ (forall (m : node) (g : ScopeChecker -> ScopeChecker)
               (self : ScopeChecker),
          stores x m = true ->
          dict_get (unused_names self) x = Some false ->
          dict_get (unused_names (visit_Name g m self)) x = Some false)
    /\ (forall (l l' : list node) (self : ScopeChecker),
          Permutation l l' ->
          dict_get (unused_names (visit_names l self)) x
          = dict_get (unused_names (visit_names l' self)) x).
Proof.
  intro x. split; [|split].
  - intros n self H. rewrite scope_visit_names, visit_names_unused, H.
    now destruct (existsb (uses x) (name_occurrences n)).
  - intros m g self Hs H. rewrite visit_Name_unused, Hs, H.
    now destruct (uses x m).
  - intros l l' self HP. rewrite !visit_names_unused.
    now rewrite (existsb_Permutation (uses x) HP),
      (existsb_Permutation (stores x) HP).
Qed.

Lemma C5_unused_flag_monotone_witness :
  let read_x := Samples.name 14 "x" Load 5 14 in
  let seen_read := visit_names [read_x] (new_scope_checker "W002") in
  dict_get (unused_names seen_read) "x" = Some false
  /\ dict_get
       (unused_names
          (visit Unused_Variable_In_Scope_Checker_methods Samples.f_def
             seen_read)) "x" = Some false
  /\ dict_get (unused_names (visit_Name (fun s => s) Samples.f_write seen_read))
       "x" = Some false
  /\ dict_get
       (unused_names
          (visit_names [Samples.f_write; read_x] (new_scope_checker "W002")))
       "x"
     = dict_get
         (unused_names
            (visit_names [read_x; Samples.f_write] (new_scope_checker "W002")))
         "x".
Proof.
  intros read_x seen_read.
  destruct (C5_unused_flag_monotone "x") as [Htree [Hwrite Horder]].
  split; [reflexivity|]. split; [|split].
  - apply Htree. reflexivity.
  - apply Hwrite; reflexivity.
  - apply Horder. apply perm_swap.
Defined.

(** ** Violation sets *)

Lemma violation_eqb_refl v : violation_eqb v v = true.
Proof.
  unfold violation_eqb. now rewrite Nat.eqb_refl, String.eqb_refl.
Qed.

Lemma violation_eqb_trans a b c :
  violation_eqb a b = true -> violation_eqb b c = true ->
  violation_eqb a c = true.
Proof.
  unfold violation_eqb. rewrite !andb_true_iff, !Nat.eqb_eq, !String.eqb_eq.
  intros [H1 H2] [H3 H4]. split; congruence.
Qed.

Lemma violation_eqb_sym a b : violation_eqb a b = violation_eqb b a.
Proof.
  unfold violation_eqb. now rewrite Nat.eqb_sym, String.eqb_sym.
Qed.

Lemma reported_add v u self :
  reported v (add_violation u self) = reported v self || violation_eqb u v.
Proof.
  unfold reported, add_violation, pyset_add. cbn [violations].
  destruct (pyset_mem violation_eqb u (violations self)) eqn:Hu.
  - destruct (violation_eqb u v) eqn:Huv; [|now rewrite orb_false_r].
    rewrite orb_true_r. unfold pyset_mem in *.
    apply existsb_exists in Hu. destruct Hu as [e [Hin He]].
    apply existsb_exists. exists e. split; [exact Hin|].
    eapply violation_eqb_trans; eassumption.
  - apply pyset_mem_snoc.
Qed.

Lemma reported_add_violations v :
  forall vs self,
    reported v (add_violations vs self)
    = reported v self || existsb (fun u => violation_eqb u v) vs.
Proof.
  induction vs as [|u vs IH]; intro self.
  - cbn. now rewrite orb_false_r.
  - change (add_violations (u :: vs) self)
      with (add_violations vs (add_violation u self)).
    rewrite IH, reported_add. cbn [existsb]. now rewrite orb_assoc.
Qed.

Lemma add_violations_code vs self :
  issue_code (add_violations vs self) = issue_code self
  /\ cls (add_violations vs self) = cls self.
Proof.
  revert self. induction vs as [|u vs IH]; intro self; [now split|].
  change (add_violations (u :: vs) self)
    with (add_violations vs (add_violation u self)).
  destruct (IH (add_violation u self)) as [H1 H2]. now split.
Qed.

(** ** Unused_Variable_Checker *)

Lemma report_unused_violations visitor self :
  report_unused visitor self
  = add_violations (unused_violations visitor) self.
Proof.
  unfold report_unused, unused_violations.
  generalize (name_nodes visitor) as nn.
  generalize (unused_names visitor) as d. intros d nn. revert self.
  induction d as [|[k b] d IH]; intro self; [reflexivity|].
  cbn [fold_left flat_map]. rewrite add_violations_app, IH.
  f_equal. destruct b; [|reflexivity].
  now destruct (dict_get nn k).
Qed.

Lemma filter_flat_map (A B : Type) (p : B -> bool) (f : A -> list B) l :
  filter p (flat_map f l) = flat_map (fun a => filter p (f a)) l.
Proof.
  induction l as [|a l IH]; [reflexivity|].
  cbn [flat_map]. now rewrite filter_app, IH.
Qed.

Lemma existsb_filter (A : Type) (f p : A -> bool) l :
  (forall a, f a = true -> p a = true) ->
  existsb f (filter p l) = existsb f l.
Proof.
  intro H. induction l as [|a l IH]; [reflexivity|].
  cbn [filter existsb]. destruct (p a) eqn:Hp; cbn [existsb].
  - now rewrite IH.
  - rewrite IH. destruct (f a) eqn:Hf; [|reflexivity].
    rewrite (H a Hf) in Hp. discriminate.
Qed.

Lemma find_filter (A : Type) (f p : A -> bool) l :
  (forall a, f a = true -> p a = true) ->
  find f (filter p l) = find f l.
Proof.
  intro H. induction l as [|a l IH]; [reflexivity|].
  cbn [filter find]. destruct (p a) eqn:Hp; cbn [find].
  - now rewrite IH.
  - rewrite IH. destruct (f a) eqn:Hf; [|reflexivity].
    rewrite (H a Hf) in Hp. discriminate.
Qed.

Lemma parsed_shape_child n c :
  parsed_shape n -> In c (children n) -> parsed_shape c.
Proof.
  unfold parsed_shape. destruct n as [i k l col cs]. cbn [subtree children].
  cbn [forallb]. intros H Hin. apply andb_true_iff in H.
  destruct H as [_ H]. rewrite forallb_forall in *.
  intros m Hm. apply H. apply in_flat_map. eauto.
Qed.

Lemma name_occurrences_subtree :
  forall n,
    parsed_shape n ->
    name_occurrences n
    = filter (fun m => String.eqb (class_name m) "Name") (subtree n).
Proof.
  induction n as [i k l c cs IH] using node_ind'. intro Hp.
  cbn [name_occurrences subtree filter children].
  destruct (String.eqb (class_name (Node i k l c cs)) "Name") eqn:Hn.
  - assert (Hcs : cs = []).
    { unfold parsed_shape in Hp. cbn [subtree forallb] in Hp.
      apply andb_true_iff in Hp. destruct Hp as [Hok _].
      unfold class_name in Hn. unfold node_ok in Hok.
      cbn [kind children] in Hn, Hok.
      destruct k; try discriminate.
      - now destruct cs.
      - apply String.eqb_eq in Hn. subst cls0. discriminate. }
    subst cs. reflexivity.
  - rewrite filter_flat_map.
    assert (Hc : forall x, In x cs -> parsed_shape x)
      by (intros x Hx; eapply parsed_shape_child; [exact Hp|exact Hx]).
    clear Hp Hn. induction IH as [|x xs Hx Hxs IHxs]; [reflexivity|].
    cbn [flat_map]. rewrite Hx by (apply Hc; now left).
    rewrite IHxs; [reflexivity|]. intros y Hy. apply Hc. now right.
Qed.

Lemma uses_is_name x m :
  uses x m = true -> String.eqb (class_name m) "Name" = true.
Proof.
  unfold uses, class_name. destruct (kind m); try discriminate. reflexivity.
Qed.

Lemma stores_is_name x m :
  stores x m = true -> String.eqb (class_name m) "Name" = true.
Proof.
  unfold stores, class_name. destruct (kind m); try discriminate. reflexivity.
Qed.

(** What the finished tracker of a scope knows about a name. *)
Lemma scope_visitor_unused code n x :
  parsed_shape n ->
  dict_get (unused_names (scope_visitor code n)) x
  = if existsb (uses x) (subtree n) then Some false
    else if existsb (stores x) (subtree n) then Some true else None.
Proof.
  intro Hp. unfold scope_visitor.
  rewrite scope_visit_names, visit_names_unused.
  rewrite (name_occurrences_subtree Hp).
  rewrite (existsb_filter _ _ _ (@uses_is_name x)).
  rewrite (existsb_filter _ _ _ (@stores_is_name x)).
  reflexivity.
Qed.

Lemma scope_visitor_nodes code n x :
  parsed_shape n ->
  dict_get (name_nodes (scope_visitor code n)) x = first_store x n.
Proof.
  intro Hp. unfold scope_visitor, first_store.
  rewrite scope_visit_names, visit_names_nodes.
  rewrite (name_occurrences_subtree Hp).
  now rewrite (find_filter _ _ _ (@stores_is_name x)).
Qed.

Lemma scope_visitor_keys code n :
  NoDup (map fst (unused_names (scope_visitor code n))).
Proof.
  unfold scope_visitor. rewrite scope_visit_names.
  apply visit_names_keys. constructor.
Qed.

(** The Violations built for one name: at most one, for a name still
    flagged unused, on the node kept for it. *)
Lemma unused_violations_for x visitor :
  NoDup (map fst (unused_names visitor)) ->
  filter (fun v => String.eqb (message v) ("Unused variable: " ++ x))
         (unused_violations visitor)
  = match dict_get (unused_names visitor) x with
    | Some true =>
        match dict_get (name_nodes visitor) x with
        | Some w => [mkViolation w ("Unused variable: " ++ x)]
        | None => []
        end
    | _ => []
    end.
Proof.
  unfold unused_violations.
  generalize (name_nodes visitor) as nn.
  generalize (unused_names visitor) as d. intros d nn Hnd.
  induction d as [|[k b] d IH]; [reflexivity|].
  cbn [flat_map dict_get]. rewrite filter_app.
  inversion Hnd as [|? ? Hk Hd]; subst.
  destruct (String.eqb_spec k x) as [->|Hne].
  - rewrite (IH Hd).
    assert (Hnone : dict_get d x = None)
      by (apply dict_get_None_keys; exact Hk).
    rewrite Hnone, app_nil_r.
    destruct b; [|reflexivity].
    destruct (dict_get nn x); [|reflexivity].
    cbn [filter message]. now rewrite String.eqb_refl.
  - rewrite (IH Hd).
    assert (Hhead :
              filter (fun v => String.eqb (message v)
                                 ("Unused variable: " ++ x))
                (if b
                 then match dict_get nn k with
                      | Some node =>
                          [mkViolation node ("Unused variable: " ++ k)]
                      | None => []
                      end
                 else []) = []).
    { destruct b; [|reflexivity].
      destruct (dict_get nn k); [|reflexivity].
      cbn [filter message]. rewrite append_eqb.
      destruct (String.eqb_spec k x); [contradiction|reflexivity]. }
    rewrite Hhead. reflexivity.
Qed.

(** Whenever a name is still flagged unused, its first write was kept, so
    [visitor.name_nodes[name]] raises no KeyError. *)
Lemma unused_has_node :
  forall l self x,
    (forall y, dict_get (unused_names self) y = Some true ->
               dict_get (name_nodes self) y <> None) ->
    dict_get (unused_names (visit_names l self)) x = Some true ->
    dict_get (name_nodes (visit_names l self)) x <> None.
Proof.
  intros l self x Hinv. rewrite visit_names_unused, visit_names_nodes.
  destruct (existsb (uses x) l); [discriminate|].
  destruct (dict_get (unused_names self) x) as [b|] eqn:Hu.
  - intro Hb. injection Hb as ->. specialize (Hinv x Hu).
    now destruct (dict_get (name_nodes self) x).
  - destruct (existsb (stores x) l) eqn:Hs; [|discriminate]. intros _.
    destruct (dict_get (name_nodes self) x); [discriminate|].
    apply existsb_exists in Hs. destruct Hs as [m [Hin Hm]].
    intro Hf. apply (find_none _ _ Hf) in Hin. congruence.
Qed.

Lemma scope_visitor_has_node code n x :
  dict_get (unused_names (scope_visitor code n)) x = Some true ->
  dict_get (name_nodes (scope_visitor code n)) x <> None.
Proof.
  unfold scope_visitor. rewrite scope_visit_names.
  apply unused_has_node. intros y Hy. discriminate.
Qed.

Lemma first_store_some x n :
  existsb (stores x) (subtree n) = true ->
  exists w, first_store x n = Some w /\ stores x w = true.
Proof.
  intro Hs. unfold first_store.
  destruct (find (stores x) (subtree n)) as [w|] eqn:Hw.
  - exists w. split; [reflexivity|]. now apply find_some in Hw.
  - exfalso. apply existsb_exists in Hs. destruct Hs as [m [Hin Hm]].
    apply (find_none _ _ Hw) in Hin. congruence.
Qed.

(** The Violations one scope builds for one name. *)
Lemma scope_report_about code n x :
  parsed_shape n ->
  filter (fun v => String.eqb (message v) ("Unused variable: " ++ x))
         (unused_violations (scope_visitor code n))
  = if existsb (uses x) (subtree n) then []
    else if existsb (stores x) (subtree n)
         then match first_store x n with
              | Some w => [mkViolation w ("Unused variable: " ++ x)]
              | None => []
              end
         else [].
Proof.
  intro Hp.
  rewrite (@unused_violations_for x _ (scope_visitor_keys code n)).
  rewrite (scope_visitor_unused _ x Hp), (scope_visitor_nodes _ x Hp).
  destruct (existsb (uses x) (subtree n)); [reflexivity|].
  now destruct (existsb (stores x) (subtree n)).
Qed.

(** C2.  When the unused-variable analysis runs on a node (of the shape the
    parser gives), the Violations it adds are those of [unused_violations].
    A name with a write occurrence and no other occurrence anywhere in the
    node's subtree gets exactly one of them: it sits on the first write
    occurrence (in traversal order), reads "Unused variable: <name>", and is
    in the checker's set afterwards.  A name with a read occurrence anywhere
    in the subtree (before or after its writes) gets none. *)
Theorem C2_unused_variable :
  forall (n : node) (self : Checker) (x : string),
    parsed_shape n ->
    let visitor := scope_visitor (issue_code self) n in
    let about_x :=
      filter (fun v => String.eqb (message v) ("Unused variable: " ++ x))
             (unused_violations visitor) in
    check_for_unused_variables self n
    = add_violations (unused_violations visitor) self
    /\ (existsb (stores x) (subtree n) = true ->
        existsb (uses x) (subtree n) = false ->
        exists w,
          first_store x n = Some w
          /\ stores x w = true
          /\ about_x = [mkViolation w ("Unused variable: " ++ x)]
          /\ reported (mkViolation w ("Unused variable: " ++ x))
                      (check_for_unused_variables self n) = true)
    /\ (existsb (uses x) (subtree n) = true -> about_x = []).
Proof.
  intros n self x Hp visitor about_x.
  assert (Hrun : check_for_unused_variables self n
                 = add_violations (unused_violations visitor) self)
    by apply report_unused_violations.
  assert (Habout := scope_report_about (issue_code self) x Hp).
  fold visitor in Habout. fold about_x in Habout.
  split; [exact Hrun|]. split.
  - intros Hs Hu. rewrite Hu, Hs in Habout.
    destruct (first_store_some x n Hs) as [w [Hw Hsw]].
    rewrite Hw in Habout.
    exists w. split; [exact Hw|]. split; [exact Hsw|].
    split; [exact Habout|].
    rewrite Hrun, reported_add_violations.
    apply orb_true_iff. right. apply existsb_exists.
    exists (mkViolation w ("Unused variable: " ++ x)).
    split; [|apply violation_eqb_refl].
    assert (Hin : In (mkViolation w ("Unused variable: " ++ x)) about_x)
      by (rewrite Habout; now left).
    unfold about_x in Hin. now apply filter_In in Hin.
  - intro Hu. now rewrite Hu in Habout.
Qed.

Lemma C2_unused_variable_witness :
  parsed_shape Samples.unused_def
  /\ (exists w,
         first_store "x" Samples.unused_def = Some w
         /\ stores "x" w = true
         /\ filter (fun v => String.eqb (message v) "Unused variable: x")
              (unused_violations (scope_visitor "W002" Samples.unused_def))
            = [mkViolation w "Unused variable: x"]
         /\ reported (mkViolation w "Unused variable: x")
              (check_for_unused_variables
                 (new_checker Unused_Variable_Checker "W002")
                 Samples.unused_def) = true)
  /\ filter (fun v => String.eqb (message v) "Unused variable: y")
       (unused_violations (scope_visitor "W002" Samples.unused_def)) = [].
Proof.
  split; [reflexivity|]. split.
  - apply (proj1 (proj2
             (@C2_unused_variable Samples.unused_def
                (new_checker Unused_Variable_Checker "W002") "x" eq_refl)));
      reflexivity.
  - apply (proj2 (proj2
             (@C2_unused_variable Samples.unused_def
                (new_checker Unused_Variable_Checker "W002") "y" eq_refl))).
    reflexivity.
Defined.

(** ** The traversal of Unused_Variable_Checker *)

Lemma subtree_root n : In n (subtree n).
Proof. destruct n. now left. Qed.

Lemma subtree_trans :
  forall s m inner,
    In inner (subtree s) -> In m (subtree inner) -> In m (subtree s).
Proof.
  induction s as [i k l c cs IH] using node_ind'. intros m inner Hin Hm.
  cbn [subtree children] in Hin |- *. destruct Hin as [<-|Hin].
  - exact Hm.
  - right. apply in_flat_map in Hin. destruct Hin as [x [Hx Hin]].
    apply in_flat_map. exists x. split; [exact Hx|].
    rewrite Forall_forall in IH. eapply IH; eassumption.
Qed.

Lemma parsed_shape_subtree tree s :
  parsed_shape tree -> In s (subtree tree) -> parsed_shape s.
Proof.
  unfold parsed_shape. rewrite !forallb_forall. intros H Hs m Hm.
  apply H. eapply subtree_trans; eassumption.
Qed.

(** The three handlers of the class do the same thing. *)
Lemma unused_variable_handler name h :
  getattr Unused_Variable_Checker_methods name = Some h ->
  h = visit_FunctionDef.
Proof.
  unfold Unused_Variable_Checker_methods. cbn [getattr].
  destruct (String.eqb "visit_Modules" name); [now intros [= <-]|].
  destruct (String.eqb "visit_ClassDef" name); [now intros [= <-]|].
  destruct (String.eqb "visit_FunctionDef" name); [now intros [= <-]|].
  discriminate.
Qed.

Lemma check_for_unused_variables_code self n :
  issue_code (check_for_unused_variables self n) = issue_code self.
Proof.
  unfold check_for_unused_variables. rewrite report_unused_violations.
  apply add_violations_code.
Qed.

(** The Violations of the scopes analysed in a tree, scope after scope. *)
Lemma unused_variable_visit :
  forall n self,
    visit Unused_Variable_Checker_methods n self
    = add_violations
        (flat_map (fun s => unused_violations
                              (scope_visitor (issue_code self) s))
                  (analysed_nodes n))
        self.
Proof.
  induction n as [i k l c cs IH] using node_ind'. intro self.
  assert (Hkids :
            forall self',
              fold_left
                (fun s' child => visit Unused_Variable_Checker_methods child s')
                cs self'
              = add_violations
                  (flat_map (fun s => unused_violations
                                        (scope_visitor (issue_code self') s))
                            (filter triggers (flat_map subtree cs)))
                  self').
  { induction IH as [|x xs Hx Hxs IHxs]; intro self'; [reflexivity|].
    cbn [fold_left flat_map]. rewrite filter_app, flat_map_app.
    rewrite add_violations_app, IHxs, Hx.
    fold (analysed_nodes x).
    now rewrite (proj1 (add_violations_code _ self')). }
  rewrite visit_unfold. unfold analysed_nodes.
  cbn [subtree children filter]. unfold triggers at 1.
  destruct (getattr Unused_Variable_Checker_methods
              ("visit_" ++ class_name (Node i k l c cs))) as [h|] eqn:Hh.
  - rewrite (unused_variable_handler _ Hh). unfold visit_FunctionDef.
    rewrite Hkids, check_for_unused_variables_code.
    cbn [flat_map]. rewrite add_violations_app. f_equal.
    apply report_unused_violations.
  - apply Hkids.
Qed.

(** C3 (as the code has it).  Every class or function node of the tree is
    analysed by a tracker of its own, and the checker ends with the
    Violations of all of them.  The tracker of a scope covers the node's
    whole subtree, nested scopes included.  So a name written and never read
    anywhere in the subtree of a scope is flagged at its first write,
    whatever scopes outside that subtree do with the name; and a read of the
    name anywhere in the subtree, also inside a nested inner scope, keeps the
    scope from flagging it. *)
Theorem C3_scopes_by_subtree :
  forall (repr : constant -> string) (tree : node) (self : Checker)
         (s : node) (x : string),
    cls self = Unused_Variable_Checker ->
    parsed_shape tree ->
    In s (subtree tree) ->
    is_scope s = true ->
    let final := checker_visit repr self tree in
    let report := fun s' => unused_violations
                              (scope_visitor (issue_code self) s') in
    final = add_violations (flat_map report (analysed_nodes tree)) self
    /\ (existsb (stores x) (subtree s) = true ->
        existsb (uses x) (subtree s) = false ->
        exists w,
          first_store x s = Some w
          /\ reported (mkViolation w ("Unused variable: " ++ x)) final = true)
    /\ (forall inner,
          In inner (subtree s) ->
          existsb (uses x) (subtree inner) = true ->
          filter (fun v => String.eqb (message v) ("Unused variable: " ++ x))
                 (report s) = []).
Proof.
  intros repr tree self s x Hc Hp Hs Hscope final report.
  assert (Hfinal : final
                   = add_violations (flat_map report (analysed_nodes tree))
                       self).
  { unfold final, checker_visit. rewrite Hc. apply unused_variable_visit. }
  assert (Hps : parsed_shape s) by (eapply parsed_shape_subtree; eassumption).
  assert (Han : In s (analysed_nodes tree)).
  { apply filter_In. split; [exact Hs|].
    unfold is_scope in Hscope. unfold triggers, class_name.
    destruct (kind s); try discriminate; reflexivity. }
  split; [exact Hfinal|]. split.
  - intros Hst Hus.
    destruct (first_store_some x s Hst) as [w [Hw _]].
    assert (Habout := scope_report_about (issue_code self) x Hps).
    rewrite Hus, Hst, Hw in Habout.
    exists w. split; [exact Hw|].
    rewrite Hfinal, reported_add_violations. apply orb_true_iff. right.
    apply existsb_exists.
    exists (mkViolation w ("Unused variable: " ++ x)).
    split; [|apply violation_eqb_refl].
    apply in_flat_map. exists s. split; [exact Han|].
    assert (Hin : In (mkViolation w ("Unused variable: " ++ x))
                     (filter (fun v => String.eqb (message v)
                                         ("Unused variable: " ++ x))
                             (report s)))
      by (unfold report; rewrite Habout; now left).
    now apply filter_In in Hin.
  - intros inner Hin Hus. unfold report.
    rewrite (scope_report_about (issue_code self) x Hps).
    assert (Hread : existsb (uses x) (subtree s) = true).
    { apply existsb_exists in Hus. destruct Hus as [m [Hm Hum]].
      apply existsb_exists. exists m. split; [|exact Hum].
      eapply subtree_trans; eassumption. }
    now rewrite Hread.
Qed.

Lemma C3_scopes_by_subtree_witness :
  let final := checker_visit Samples.repr
                 (new_checker Unused_Variable_Checker "W002")
                 Samples.siblings_tree in
  (exists w,
      first_store "x" Samples.f_def = Some w
      /\ reported (mkViolation w "Unused variable: x") final = true)
  /\ filter (fun v => String.eqb (message v) "Unused variable: x")
       (unused_violations (scope_visitor "W002" Samples.g_def)) = [].
Proof.
  intro final. split.
  - apply (proj1 (proj2
             (@C3_scopes_by_subtree Samples.repr Samples.siblings_tree
                (new_checker Unused_Variable_Checker "W002")
                Samples.f_def "x" eq_refl eq_refl
                (or_intror (or_introl eq_refl)) eq_refl)));
      reflexivity.
  - apply (proj2 (proj2
             (@C3_scopes_by_subtree Samples.repr Samples.siblings_tree
                (new_checker Unused_Variable_Checker "W002")
                Samples.g_def "x" eq_refl eq_refl
                ltac:(cbn; tauto) eq_refl))
           Samples.g_def (subtree_root _)).
    reflexivity.
Defined.

(** C3, counterexample to independence under nesting: [outer] writes [x] and never reads it in its own
    body, the nested [inner] writes and reads its own [x], and the checker
    reports nothing: the outer write is not flagged. *)
Lemma C3_nested_scope_counterexample :
  let final := checker_visit Samples.repr
                 (new_checker Unused_Variable_Checker "W002")
                 Samples.nested_tree in
  is_scope Samples.outer_def = true
  /\ is_scope Samples.inner_def = true
  /\ In Samples.inner_def (children Samples.outer_def)
  /\ existsb (stores "x") (own_nodes Samples.outer_def) = true
  /\ existsb (uses "x") (own_nodes Samples.outer_def) = false
  /\ find (stores "x") (own_nodes Samples.outer_def) = Some Samples.outer_write
  /\ existsb (stores "x") (own_nodes Samples.inner_def) = true
  /\ existsb (uses "x") (own_nodes Samples.inner_def) = true
  /\ reported (mkViolation Samples.outer_write "Unused variable: x") final
     = false
  /\ violations final = [].
Proof.
  cbn. repeat split; auto.
Qed.

(** C4 (the code at the failing input).  The handler for the module root is
    registered as [visit_Modules], and a module node is looked up as
    [visit_Module]: no module root is analysed.  For the module [x = 1],
    where [x] is written and never read, the checker reports nothing. *)
Theorem C4_module_root_not_analysed :
  forall (repr : constant -> string),
    (forall i l c cs, triggers (Node i Module l c cs) = false)
    /\ existsb (stores "x") (subtree Samples.module_tree) = true
    /\ existsb (uses "x") (subtree Samples.module_tree) = false
    /\ analysed_nodes Samples.module_tree = []
    /\ violations (checker_visit repr
                     (new_checker Unused_Variable_Checker "W002")
                     Samples.module_tree) = [].
Proof.
  intro repr. repeat split; reflexivity.
Qed.

(** ** The violation set stays a set *)

Lemma pyset_add_ok (A : Type) (eqb : A -> A -> bool) v s :
  pyset_ok eqb s = true -> pyset_ok eqb (pyset_add eqb v s) = true.
Proof.
  unfold pyset_add. destruct (pyset_mem eqb v s) eqn:Hm; [auto|].
  unfold pyset_mem in Hm. induction s as [|x s IH]; intro Hok.
  - reflexivity.
  - cbn [existsb] in Hm. apply orb_false_iff in Hm. destruct Hm as [Hx Hm].
    cbn [pyset_ok app] in *. apply andb_true_iff in Hok.
    destruct Hok as [Hfresh Hok]. apply andb_true_iff. split.
    + rewrite existsb_app. cbn [existsb]. rewrite Hx.
      apply negb_true_iff in Hfresh. now rewrite Hfresh.
    + now apply IH.
Qed.

Lemma add_violations_ok :
  forall vs self,
    pyset_ok violation_eqb (violations self) = true ->
    pyset_ok violation_eqb (violations (add_violations vs self)) = true.
Proof.
  induction vs as [|v vs IH]; intros self H; [exact H|].
  change (add_violations (v :: vs) self)
    with (add_violations vs (add_violation v self)).
  apply IH. cbn [add_violation violations]. now apply pyset_add_ok.
Qed.

(** In a well-built set the entries equal to a given member are one. *)
Lemma pyset_ok_count v :
  forall s,
    pyset_ok violation_eqb s = true ->
    pyset_mem violation_eqb v s = true ->
    List.length (filter (fun e => violation_eqb e v) s) = 1.
Proof.
  induction s as [|x s IH]; intros Hok Hm; [discriminate|].
  cbn [pyset_ok] in Hok. apply andb_true_iff in Hok.
  destruct Hok as [Hfresh Hok]. apply negb_true_iff in Hfresh.
  unfold pyset_mem in Hm. cbn [existsb filter] in *.
  destruct (violation_eqb x v) eqn:Hx.
  - cbn [List.length]. f_equal.
    assert (Hnone : filter (fun e => violation_eqb e v) s = []).
    { clear IH Hm Hok. induction s as [|e s IHs]; [reflexivity|].
      cbn [existsb] in Hfresh. apply orb_false_iff in Hfresh.
      destruct Hfresh as [Hxe Hfresh]. cbn [filter].
      destruct (violation_eqb e v) eqn:He; [|now apply IHs].
      rewrite violation_eqb_sym in He.
      rewrite (violation_eqb_trans _ _ _ Hx He) in Hxe. discriminate. }
    now rewrite Hnone.
  - apply IH; [exact Hok|exact Hm].
Qed.

(** A traversal keeps every property of the visitor that its handlers
    keep. *)
Section VisitPreserves.
Variable S : Type.
Variable methods : list (string * handler S).
Variable P : S -> Prop.
Hypothesis handlers_keep :
  forall name h,
    getattr methods name = Some h ->
    forall (g : S -> S) n s, (forall s', P s' -> P (g s')) -> P s -> P (h g n s).

Lemma visit_preserves : forall n s, P s -> P (visit methods n s).
Proof.
  induction n as [i k l c cs IH] using node_ind'. intros s Hs.
  assert (Hkids : forall s',
             P s' ->
             P (fold_left (fun s'' child => visit methods child s'') cs s')).
  { clear Hs. induction IH as [|x xs Hx Hxs IHxs]; intros s' Hs'; [exact Hs'|].
    cbn [fold_left]. apply IHxs. now apply Hx. }
  rewrite visit_unfold.
  destruct (getattr methods ("visit_" ++ class_name (Node i k l c cs)))
    as [h|] eqn:Hh.
  - eapply handlers_keep; [exact Hh|exact Hkids|exact Hs].
  - now apply Hkids.
Qed.
End VisitPreserves.

Lemma checker_visit_ok (repr : constant -> string) tree self :
  pyset_ok violation_eqb (violations self) = true ->
  pyset_ok violation_eqb (violations (checker_visit repr self tree)) = true.
Proof.
  unfold checker_visit.
  apply (@visit_preserves _ _
           (fun s => pyset_ok violation_eqb (violations s) = true)).
  intros name h Hh g n s Hg Hs.
  destruct (cls self); cbn [methods_of] in Hh.
  - unfold SetDuplicateItemChecker_methods in Hh. cbn [getattr] in Hh.
    destruct (String.eqb "visit_Set" name); [|discriminate].
    injection Hh as <-. unfold visit_Set.
    rewrite (visit_Set_loop_flagged repr (children n) [] [] s)
      by reflexivity.
    now apply add_violations_ok.
  - rewrite (unused_variable_handler _ Hh). unfold visit_FunctionDef.
    apply Hg. unfold check_for_unused_variables.
    rewrite report_unused_violations. now apply add_violations_ok.
Qed.

(** C7.  The violations of a checker form a set under the equality "same
    node object and same message": adding two Violations built from the same
    node and the same message leaves one entry for them (the second add
    changes nothing), and the collection stays free of repeated entries
    through every handler and every traversal, from [Checker.__init__]
    on. *)
Theorem C7_violations_deduplicated :
  forall (repr : constant -> string),
    (forall c code, pyset_ok violation_eqb (violations (new_checker c code))
                    = true)
    /\ (forall (n : node) (msg : string) (self : Checker),
          pyset_ok violation_eqb (violations self) = true ->
          let first := mkViolation n msg in
          let second := mkViolation n msg in
          let self' := add_violation second (add_violation first self) in
          self' = add_violation first self
          /\ List.length
               (filter (fun e => violation_eqb e first) (violations self'))
             = 1
          /\ pyset_ok violation_eqb (violations self') = true)
    /\ (forall (g : Checker -> Checker) (n : node) (self : Checker),
          pyset_ok violation_eqb (violations self) = true ->
          pyset_ok violation_eqb (violations (visit_Set repr g n self)) = true
          /\ pyset_ok violation_eqb
               (violations (check_for_unused_variables self n)) = true)
    /\ (forall (tree : node) (self : Checker),
          pyset_ok violation_eqb (violations self) = true ->
          pyset_ok violation_eqb (violations (checker_visit repr self tree))
          = true).
Proof.
  intro repr. split; [reflexivity|]. split; [|split].
  - intros n msg self Hok first second self'.
    assert (Hmem : reported first (add_violation first self) = true).
    { rewrite reported_add, violation_eqb_refl. apply orb_true_r. }
    assert (Hsame : self' = add_violation first self).
    { unfold self', second. unfold add_violation at 1, pyset_add.
      unfold reported in Hmem. fold first. rewrite Hmem.
      now destruct self. }
    split; [exact Hsame|]. rewrite Hsame.
    assert (Hok' : pyset_ok violation_eqb
                     (violations (add_violation first self)) = true)
      by (cbn [add_violation violations]; now apply pyset_add_ok).
    split; [|exact Hok'].
    apply pyset_ok_count; [exact Hok'|exact Hmem].
  - intros g n self Hok. split.
    + unfold visit_Set.
      rewrite (visit_Set_loop_flagged repr (children n) [] [] self)
        by reflexivity.
      now apply add_violations_ok.
    + unfold check_for_unused_variables.
      rewrite report_unused_violations. now apply add_violations_ok.
  - intros tree self Hok. now apply checker_visit_ok.
Qed.

Lemma C7_violations_deduplicated_witness :
  let self := checker_visit Samples.repr
                (new_checker SetDuplicateItemChecker "W001")
                Samples.dups_tree in
  let twice :=
    add_violation
      (mkViolation (Samples.int 6 2 1 11) "Set contains duplicate item: 2")
      (add_violation
         (mkViolation (Samples.int 6 2 1 11) "Set contains duplicate item: 2")
         self) in
  pyset_ok violation_eqb (violations self) = true
  /\ List.length
       (filter (fun e => violation_eqb e
                           (mkViolation (Samples.int 6 2 1 11)
                              "Set contains duplicate item: 2"))
               (violations twice)) = 1
  /\ pyset_ok violation_eqb
       (violations (check_for_unused_variables self Samples.unused_def))
     = true.
Proof.
  intros self twice.
  destruct (C7_violations_deduplicated Samples.repr)
    as [Hnew [Hadd [Hhandler Hvisit]]].
  assert (Hok : pyset_ok violation_eqb (violations self) = true)
    by (apply Hvisit; apply Hnew).
  split; [exact Hok|]. split.
  - apply (Hadd (Samples.int 6 2 1 11) "Set contains duplicate item: 2"
                self Hok).
  - apply (Hhandler (fun s => s) Samples.unused_def self Hok).
Defined.

(** ** Below the elements of a set literal *)

Lemma NoDup_app_disjoint (A : Type) (l1 l2 : list A) a :
  NoDup (l1 ++ l2) -> In a l1 -> ~ In a l2.
Proof.
  induction l1 as [|x l1 IH]; intros Hnd Hin; [destruct Hin|].
  cbn [app] in Hnd. inversion Hnd as [|? ? Hx Hrest]; subst.
  destruct Hin as [->|Hin].
  - intro H2. apply Hx. apply in_or_app. now right.
  - now apply IH.
Qed.

Lemma NoDup_flat_map_part (A B C : Type) (f : B -> C) (g : A -> list B) :
  forall l a,
    NoDup (map f (flat_map g l)) -> In a l -> NoDup (map f (g a)).
Proof.
  induction l as [|h t IH]; intros a Hnd Hin; [destruct Hin|].
  cbn [flat_map] in Hnd. rewrite map_app in Hnd. destruct Hin as [->|Hin].
  - eapply NoDup_app_remove_r; exact Hnd.
  - apply IH; [|exact Hin]. eapply NoDup_app_remove_l; exact Hnd.
Qed.

Lemma NoDup_flat_map_owner (A B C : Type) (f : B -> C) (g : A -> list B) :
  forall l a b x y,
    NoDup (map f (flat_map g l)) ->
    In a l -> In b l -> In x (g a) -> In y (g b) -> f x = f y -> a = b.
Proof.
  induction l as [|h t IH]; intros a b x y Hnd Ha Hb Hx Hy Hxy;
    [destruct Ha|].
  cbn [flat_map] in Hnd. rewrite map_app in Hnd.
  assert (Hout : forall u v w,
             In u t -> In v (g u) -> In w (g h) -> f w <> f v).
  { intros u v w Hu Hv Hw Heq.
    apply (NoDup_app_disjoint _ _ (f w) Hnd).
    - now apply in_map.
    - rewrite Heq. apply in_map. apply in_flat_map. eauto. }
  destruct Ha as [->|Ha], Hb as [->|Hb].
  - reflexivity.
  - exfalso. exact (Hout b y x Hb Hy Hx Hxy).
  - exfalso. exact (Hout a x y Ha Hx Hy (eq_sym Hxy)).
  - eapply IH; try eassumption. eapply NoDup_app_remove_l; exact Hnd.
Qed.

Lemma below_element e inner c :
  In inner (subtree e) -> In c (children inner) ->
  In c (flat_map subtree (children e)).
Proof.
  intros Hinner Hc.
  assert (Hci : In c (flat_map subtree (children inner)))
    by (apply in_flat_map; exists c; split; [exact Hc|apply subtree_root]).
  destruct e as [i k l col cs]. cbn [subtree children] in *.
  destruct Hinner as [<-|Hinner]; [exact Hci|].
  apply in_flat_map in Hinner. destruct Hinner as [x [Hx Hin]].
  apply in_flat_map. exists x. split; [exact Hx|].
  eapply subtree_trans; [exact Hin|].
  destruct inner. cbn [subtree children] in *. now right.
Qed.

Lemma in_add_violations v :
  forall vs self,
    In v (violations (add_violations vs self)) ->
    In v (violations self) \/ In v vs.
Proof.
  induction vs as [|u vs IH]; intros self H; [now left|].
  change (add_violations (u :: vs) self)
    with (add_violations vs (add_violation u self)) in H.
  apply IH in H. destruct H as [H|H]; [|right; now right].
  cbn [add_violation violations] in H. unfold pyset_add in H.
  destruct (pyset_mem violation_eqb u (violations self)); [now left|].
  apply in_app_or in H. destruct H as [H|[<-|[]]]; [now left|].
  right. now left.
Qed.

Lemma duplicate_violation_node (repr : constant -> string) v :
  forall l,
    In v (flat_map (duplicate_violation repr) l) -> In (v_node v) l.
Proof.
  induction l as [|e l IH]; intro H; [destruct H|].
  cbn [flat_map] in H. apply in_app_or in H. destruct H as [H|H].
  - left. unfold duplicate_violation in H.
    destruct (constant_value e); [|destruct H].
    destruct H as [<-|[]]. reflexivity.
  - right. now apply IH.
Qed.

(** C10.  [visit_Set] does not go below the elements of the set literal it
    is called on: what the checker does at a set node is the handler's own
    loop, every Violation it adds sits on a direct element of that set, and
    a node further down (an element of a set literal nested inside one of
    the elements, for one) gets no Violation from the visit. *)
Theorem C10_inner_set_not_visited :
  forall (repr : constant -> string) (n : node) (self : Checker)
         (e inner c : node),
    kind n = Set_ ->
    cls self = SetDuplicateItemChecker ->
    unique_ids n ->
    In e (children n) ->
    In inner (subtree e) ->
    In c (children inner) ->
    checker_visit repr self n = visit_Set repr (fun s => s) n self
    /\ (forall v, In v (violations (checker_visit repr self n)) ->
                  In v (violations self) \/ In (v_node v) (children n))
    /\ (forall v, In v (violations (checker_visit repr self n)) ->
                  nid (v_node v) = nid c -> In v (violations self)).
Proof.
  intros repr n self e inner c Hk Hc Hu He Hinner Hchild.
  assert (Hrun : checker_visit repr self n
                 = visit_Set repr (fun s => s) n self)
    by (now apply checker_visit_Set).
  assert (Hdirect : forall v,
             In v (violations (checker_visit repr self n)) ->
             In v (violations self) \/ In (v_node v) (children n)).
  { intros v Hv. rewrite Hrun in Hv. unfold visit_Set in Hv.
    rewrite (visit_Set_loop_flagged repr (children n) [] [] self) in Hv
      by reflexivity.
    apply in_add_violations in Hv. destruct Hv as [Hv|Hv]; [now left|].
    right. apply duplicate_violation_node in Hv.
    eapply flagged_after_incl; exact Hv. }
  split; [exact Hrun|]. split; [exact Hdirect|].
  intros v Hv Hid. destruct (Hdirect v Hv) as [Hold|Hnew]; [exact Hold|].
  exfalso.
  assert (Hbelow : In c (flat_map subtree (children e)))
    by (eapply below_element; eassumption).
  assert (Hkids : NoDup (map nid (flat_map subtree (children n)))).
  { unfold unique_ids in Hu. destruct n as [i k l col cs].
    cbn [subtree children map] in *. now inversion Hu. }
  assert (Hsame : v_node v = e).
  { apply (NoDup_flat_map_owner nid subtree (children n) (v_node v) e
             (v_node v) c Hkids Hnew He (subtree_root _)); [|exact Hid].
    destruct e. cbn [subtree children] in *. now right. }
  assert (Hec : nid e = nid c) by (rewrite <- Hsame; exact Hid).
  pose proof (NoDup_flat_map_part nid subtree (children n) e Hkids He)
    as He_ids.
  assert (Hsub : subtree e = e :: flat_map subtree (children e))
    by (destruct e; reflexivity).
  rewrite Hsub in He_ids. cbn [map] in He_ids.
  apply NoDup_cons_iff in He_ids. destruct He_ids as [Hroot _].
  apply Hroot. rewrite Hec. now apply in_map.
Qed.

Lemma C10_inner_set_not_visited_witness :
  let self := new_checker SetDuplicateItemChecker "W001" in
  unique_ids Samples.outer_set
  /\ (forall v,
         In v (violations (checker_visit Samples.repr self Samples.outer_set)) ->
         nid (v_node v) = nid (Samples.int 7 1 1 9) ->
         In v (violations self))
  /\ violations (checker_visit Samples.repr self Samples.inner_set_tree) = [].
Proof.
  intro self.
  assert (Hu : unique_ids Samples.outer_set)
    by (unfold unique_ids; cbn; repeat constructor; cbn;
        intuition discriminate).
  split; [exact Hu|]. split; [|reflexivity].
  apply (proj2 (proj2
           (@C10_inner_set_not_visited Samples.repr Samples.outer_set self
              Samples.inner_call Samples.inner_set (Samples.int 7 1 1 9)
              eq_refl eq_refl Hu (or_introl eq_refl)
              ltac:(cbn; tauto) ltac:(cbn; tauto)))).
Defined.

(** ** The driver *)

Section Driver.
Variable repr : constant -> string.
Variable read_file : string -> option string.
Variable parse : string -> option node.
Variable basename : string -> string.

(** The loop can run, whatever order the sets are iterated in. *)
Lemma run_checkers_in (tree : node) (file_name : string)
      (iter : list Violation -> list Violation) :
  (forall s, Permutation s (iter s)) ->
  forall order,
    run_checkers repr tree file_name order
      (map (fun c => checker_visit repr c tree) order)
      (flat_map (fun c => map (format_line file_name c) (iter (violations c)))
                (map (fun c => checker_visit repr c tree) order)).
Proof.
  intros Hiter order. induction order as [|c order IH]; cbn [map flat_map].
  - constructor.
  - constructor; [|exact IH]. constructor. apply Hiter.
Qed.

(** What the loop leaves and prints. *)
Lemma run_checkers_output tree file_name order checkers' out :
  run_checkers repr tree file_name order checkers' out ->
  checkers' = map (fun c => checker_visit repr c tree) order
  /\ Permutation out (flat_map (lines_of file_name) checkers').
Proof.
  induction 1 as [|c rest rest' printed out Hprint Hrest [IH1 IH2]].
  - split; [reflexivity|constructor].
  - split; [cbn [map]; now rewrite IH1|].
    cbn [flat_map]. apply Permutation_app; [|exact IH2].
    destruct Hprint as [order Horder]. unfold lines_of.
    apply Permutation_map. apply Permutation_sym. exact Horder.
Qed.

(** Two runs of [run] on the same path end alike and print the same lines,
    up to their order. *)
Lemma run_outputs checkers source_path r1 c1 out1 r2 c2 out2 :
  run repr read_file parse basename checkers source_path r1 c1 out1 ->
  run repr read_file parse basename checkers source_path r2 c2 out2 ->
  r1 = r2 /\ Permutation out1 out2.
Proof.
  intros H1 H2.
  destruct H1 as [Hr1|src1 Hr1 Hp1|src1 tree1 order1 cs1 o1 Hr1 Hp1 Ho1 Hc1];
    destruct H2 as [Hr2|src2 Hr2 Hp2|src2 tree2 order2 cs2 o2 Hr2 Hp2 Ho2 Hc2];
    try congruence; try (split; [reflexivity|constructor]).
  assert (src2 = src1) by congruence. subst.
  assert (tree2 = tree1) by congruence. subst.
  destruct (run_checkers_output Hc1) as [-> Hout1].
  destruct (run_checkers_output Hc2) as [-> Hout2].
  split; [reflexivity|].
  rewrite Hout1, Hout2. apply Permutation_flat_map, Permutation_map.
  unfold pyset_iter in *.
  now rewrite <- Ho1, <- Ho2.
Qed.
End Driver.

(** C6.  When the text of the source file does not parse, [run] ends in the
    parse error, and in no other way: nothing has been printed and every
    checker is as it was before the call (none has been visited).  [main]
    ends the same way. *)
Theorem C6_parse_error_before_checkers :
  forall (repr : constant -> string) (read_file : string -> option string)
         (parse : string -> option node) (basename : string -> string)
         (checkers : list Checker) (source_path source_file : string),
    read_file source_path = Some source_file ->
    parse source_file = None ->
    run repr read_file parse basename checkers source_path
        (Raised SyntaxError) checkers []
    /\ (forall result checkers' out,
          run repr read_file parse basename checkers source_path
              result checkers' out ->
          result = Raised SyntaxError /\ checkers' = checkers /\ out = [])
    /\ (forall prog rest result out,
          main repr read_file parse basename (prog :: source_path :: rest)
               result out ->
          result = Raised SyntaxError /\ out = []).
Proof.
  intros repr read_file parse basename checkers source_path source_file
         Hread Hparse.
  assert (Hrun : forall cs result checkers' out,
             run repr read_file parse basename cs source_path
                 result checkers' out ->
             result = Raised SyntaxError /\ checkers' = cs /\ out = []).
  { intros cs result checkers' out H.
    destruct H as [Hr|src Hr Hp|src tree order cs' o Hr Hp Ho Hc].
    - congruence.
    - now repeat split.
    - assert (src = source_file) by congruence. subst. congruence. }
  split; [|split].
  - eapply run_unparsable; eassumption.
  - apply Hrun.
  - intros prog rest result out H. inversion H as [argv Hlen|? ? ? ? cs' ? Hr];
      subst.
    + cbn in Hlen. lia.
    + destruct (Hrun _ _ _ _ Hr) as [-> [_ ->]]. now split.
Qed.

Lemma C6_parse_error_before_checkers_witness :
  Samples.read_file "src/broken.py" = Some Samples.broken_source
  /\ Samples.parse Samples.broken_source = None
  /\ run Samples.repr Samples.read_file Samples.parse Samples.basename
         (main_checkers) "src/broken.py" (Raised SyntaxError)
         (main_checkers) []
  /\ (forall result out,
         main Samples.repr Samples.read_file Samples.parse Samples.basename
              ["myLint.py"; "src/broken.py"] result out ->
         result = Raised SyntaxError /\ out = []).
Proof.
  destruct (@C6_parse_error_before_checkers Samples.repr Samples.read_file
              Samples.parse Samples.basename main_checkers
              "src/broken.py" Samples.broken_source eq_refl eq_refl)
    as [Hraise [_ Hmain]].
  split; [reflexivity|]. split; [reflexivity|]. split; [exact Hraise|].
  intros result out. apply Hmain.
Defined.

(** C9.  A run that parses its source prints, for every checker and every
    violation the checker holds after its traversal, exactly one line
    [<basename>:<line>:<column>: <issue_code>: <message>], with the line and
    the column of the violation's node; standard output is these lines, in
    some order, and nothing else. *)
Theorem C9_one_line_per_violation :
  forall (repr : constant -> string) (read_file : string -> option string)
         (parse : string -> option node) (basename : string -> string)
         (checkers checkers' : list Checker) (source_path : string)
         (out : list string),
    run repr read_file parse basename checkers source_path
        Returned checkers' out ->
    exists source_file tree order,
      read_file source_path = Some source_file
      /\ parse source_file = Some tree
      /\ Permutation checkers order
      /\ checkers' = map (fun c => checker_visit repr c tree) order
      /\ Permutation out
           (flat_map
              (fun c =>
                 map (fun v =>
                        (basename source_path ++ ":"
                           ++ str_of_nat (lineno (v_node v)) ++ ":"
                           ++ str_of_nat (col_offset (v_node v)) ++ ": "
                           ++ issue_code c ++ ": " ++ message v)%string)
                     (violations c))
              checkers').
Proof.
  intros repr read_file parse basename checkers checkers' source_path out H.
  inversion H as [| |src tree order cs' o Hr Hp Ho Hc]; subst.
  exists src, tree, order.
  destruct (run_checkers_output Hc) as [Hcs Hout].
  repeat split; try assumption.
Qed.

(** A run of [main] on a source that parses, with the checkers taken in the
    order they were added and each violation set iterated as [iter] says. *)
Lemma main_runs (repr : constant -> string)
      (read_file : string -> option string) (parse : string -> option node)
      (basename : string -> string)
      (iter : list Violation -> list Violation)
      (prog source_path source_file : string) (tree : node) :
  (forall s, Permutation s (iter s)) ->
  read_file source_path = Some source_file ->
  parse source_file = Some tree ->
  main repr read_file parse basename [prog; source_path] Returned
    (flat_map (fun c => map (format_line (basename source_path) c)
                            (iter (violations c)))
              (map (fun c => checker_visit repr c tree) main_checkers)).
Proof.
  intros Hiter Hread Hparse.
  eapply main_run. eapply run_parsed.
  - exact Hread.
  - exact Hparse.
  - apply Permutation_refl.
  - apply run_checkers_in. exact Hiter.
Qed.

Lemma C9_one_line_per_violation_witness :
  exists checkers',
    run Samples.repr Samples.read_file Samples.parse Samples.basename
        main_checkers "src/dups.py" Returned checkers'
        [Samples.dups_line_2; Samples.dups_line_1]
    /\ Permutation [Samples.dups_line_2; Samples.dups_line_1]
         (flat_map
            (fun c =>
               map (fun v =>
                      (Samples.basename "src/dups.py" ++ ":"
                         ++ str_of_nat (lineno (v_node v)) ++ ":"
                         ++ str_of_nat (col_offset (v_node v)) ++ ": "
                         ++ issue_code c ++ ": " ++ message v)%string)
                   (violations c))
            checkers').
Proof.
  assert (Hrun :
            run Samples.repr Samples.read_file Samples.parse Samples.basename
                main_checkers "src/dups.py" Returned
                (map (fun c => checker_visit Samples.repr c Samples.dups_tree)
                     main_checkers)
                [Samples.dups_line_2; Samples.dups_line_1]).
  { eapply run_parsed with (order := main_checkers).
    - reflexivity.
    - reflexivity.
    - apply Permutation_refl.
    - exact (run_checkers_in Samples.repr Samples.dups_tree "dups.py"
               (fun s => s) (@Permutation_refl _) main_checkers). }
  exists (map (fun c => checker_visit Samples.repr c Samples.dups_tree)
              main_checkers).
  split; [exact Hrun|].
  destruct (C9_one_line_per_violation Hrun)
    as [source_file [tree [order [Hread [Hparse [Horder [Hcs Hout]]]]]]].
  exact Hout.
Defined.

(** C8, counterexample to byte-identical output: on the same source [s = {1, 2, 2, 3, 1}] one run
    of [main] prints the two W001 lines in one order and another run prints
    them in the other order. *)
Lemma C8_output_order_counterexample :
  exists out1 out2,
    main Samples.repr Samples.read_file Samples.parse Samples.basename
         ["myLint.py"; "src/dups.py"] Returned out1
    /\ main Samples.repr Samples.read_file Samples.parse Samples.basename
            ["myLint.py"; "src/dups.py"] Returned out2
    /\ out1 = [Samples.dups_line_2; Samples.dups_line_1]
    /\ out2 = [Samples.dups_line_1; Samples.dups_line_2]
    /\ out1 <> out2.
Proof.
  exists [Samples.dups_line_2; Samples.dups_line_1],
         [Samples.dups_line_1; Samples.dups_line_2].
  split; [|split; [|split; [reflexivity|split; [reflexivity|discriminate]]]].
  - exact (@main_runs Samples.repr Samples.read_file Samples.parse
             Samples.basename (fun s => s) "myLint.py" "src/dups.py"
             Samples.dups_source Samples.dups_tree
             (@Permutation_refl _) eq_refl eq_refl).
  - exact (@main_runs Samples.repr Samples.read_file Samples.parse
             Samples.basename (@rev _) "myLint.py" "src/dups.py"
             Samples.dups_source Samples.dups_tree
             (@Permutation_rev _) eq_refl eq_refl).
Qed.

(** C8 (as the code has it).  Two runs of the linter on the same arguments
    and the same source end the same way and print the same lines, each as
    many times; the order of the lines is that of the iteration of the
    checker set and of the violation sets, and can differ between the
    runs. *)
Theorem C8_same_lines_up_to_order :
  forall (repr : constant -> string) (read_file : string -> option string)
         (parse : string -> option node) (basename : string -> string)
         (argv : list string) (result1 result2 : outcome)
         (out1 out2 : list string),
    main repr read_file parse basename argv result1 out1 ->
    main repr read_file parse basename argv result2 out2 ->
    result1 = result2 /\ Permutation out1 out2.
Proof.
  intros repr read_file parse basename argv result1 result2 out1 out2 H1 H2.
  destruct H1 as [argv Hlen1|prog path rest r1 cs1 o1 Hrun1].
  - inversion H2 as [? Hlen2|? ? ? ? ? ? Hrun2]; subst.
    + split; [reflexivity|constructor].
    + cbn in Hlen1. lia.
  - inversion H2 as [? Hlen2|? ? ? ? cs2 ? Hrun2]; subst.
    + cbn in Hlen2. lia.
    + eapply run_outputs; eassumption.
Qed.

Lemma C8_same_lines_up_to_order_witness :
  Permutation [Samples.dups_line_2; Samples.dups_line_1]
              [Samples.dups_line_1; Samples.dups_line_2].
Proof.
  refine (proj2
            (@C8_same_lines_up_to_order Samples.repr Samples.read_file
               Samples.parse Samples.basename ["myLint.py"; "src/dups.py"]
               Returned Returned
               [Samples.dups_line_2; Samples.dups_line_1]
               [Samples.dups_line_1; Samples.dups_line_2] _ _)).
  - exact (@main_runs Samples.repr Samples.read_file Samples.parse
             Samples.basename (fun s => s) "myLint.py" "src/dups.py"
             Samples.dups_source Samples.dups_tree
             (@Permutation_refl _) eq_refl eq_refl).
  - exact (@main_runs Samples.repr Samples.read_file Samples.parse
             Samples.basename (@rev _) "myLint.py" "src/dups.py"
             Samples.dups_source Samples.dups_tree
             (@Permutation_rev _) eq_refl eq_refl).
Defined.

(** * Further properties *)

(** ** Ends of [main] and [run] before any parsing *)





(** ** SetDuplicateItemChecker over a whole tree *)

Lemma set_checker_visit (repr : constant -> string) :
  forall n self,
    visit (SetDuplicateItemChecker_methods repr) n self
    = add_violations (flat_map (set_report repr) (visited_sets n)) self.
Proof.
  induction n as [i k l c cs IH] using node_ind'. intro self.
  rewrite visit_unfold.
  change (getattr (SetDuplicateItemChecker_methods repr)
            ("visit_" ++ class_name (Node i k l c cs)))
    with (if String.eqb ("visit_" ++ "Set")
                        ("visit_" ++ class_name (Node i k l c cs))
          then Some (visit_Set repr) else None).
  rewrite append_eqb, String.eqb_sym. cbn [visited_sets].
  destruct (String.eqb (class_name (Node i k l c cs)) "Set").
  - unfold visit_Set. cbn [flat_map]. rewrite app_nil_r.
    rewrite (visit_Set_loop_flagged repr (children (Node i k l c cs)) [] []
               self) by reflexivity.
    unfold set_report. now rewrite later_occurrences_flagged.
  - cbn [children]. revert self.
    induction IH as [|x xs Hx Hxs IHxs]; intro self; [reflexivity|].
    cbn [fold_left flat_map]. rewrite flat_map_app, add_violations_app.
    rewrite <- Hx. apply IHxs.
Qed.

Lemma visited_sets_in_tree :
  forall n s,
    In s (visited_sets n) ->
    In s (subtree n) /\ String.eqb (class_name s) "Set" = true.
Proof.
  induction n as [i k l c cs IH] using node_ind'. intros s Hs.
  cbn [visited_sets] in Hs.
  destruct (String.eqb (class_name (Node i k l c cs)) "Set") eqn:Hset.
  - destruct Hs as [<-|[]]. split; [apply subtree_root|exact Hset].
  - cbn [children] in Hs. apply in_flat_map in Hs.
    destruct Hs as [x [Hx Hs]]. rewrite Forall_forall in IH.
    destruct (IH x Hx s Hs) as [Hin Hcls]. split; [|exact Hcls].
    cbn [subtree children]. right. apply in_flat_map. eauto.
Qed.

Lemma set_report_shape (repr : constant -> string) s v :
  In v (set_report repr s) ->
  In (v_node v) (children s)
  /\ exists value,
       kind (v_node v) = Constant value
       /\ message v = ("Set contains duplicate item: " ++ repr value)%string.
Proof.
  unfold set_report. intro H. apply in_flat_map in H.
  destruct H as [e [He Hv]]. rewrite later_occurrences_flagged in He.
  assert (Hin := flagged_after_incl _ _ _ He).
  unfold duplicate_violation, constant_value in Hv.
  destruct (kind e) eqn:Hk; try (now destruct Hv).
  destruct Hv as [<-|[]]. cbn [v_node message]. split; [exact Hin|].
  exists value. split; [exact Hk|reflexivity].
Qed.

(** X3.  A traversal by SetDuplicateItemChecker runs the duplicate check at
    every set literal of the tree that lies in no other set literal, in
    traversal order, and does nothing else: the checker ends with the
    Violations of these set literals added to what it held, and every
    Violation it holds afterwards was there before or sits on a literal
    constant that is a direct element of such a set literal, with the
    duplicate message for that constant. *)
Theorem X3_set_checker_over_tree :
  forall (repr : constant -> string) (tree : node) (self : Checker),
    cls self = SetDuplicateItemChecker ->
    checker_visit repr self tree
    = add_violations (flat_map (set_report repr) (visited_sets tree)) self
    /\ (forall s, In s (visited_sets tree) ->
                  In s (subtree tree)
                  /\ String.eqb (class_name s) "Set" = true)
    /\ (forall v,
          In v (violations (checker_visit repr self tree)) ->
          In v (violations self)
          \/ exists s value,
               In s (visited_sets tree)
               /\ In (v_node v) (children s)
               /\ kind (v_node v) = Constant value
               /\ message v = ("Set contains duplicate item: " ++ repr value)%string).
Proof.
  intros repr tree self Hc.
  assert (Hrun : checker_visit repr self tree
                 = add_violations
                     (flat_map (set_report repr) (visited_sets tree)) self).
  { unfold checker_visit. rewrite Hc. apply set_checker_visit. }
  split; [exact Hrun|]. split; [apply visited_sets_in_tree|].
  intros v Hv. rewrite Hrun in Hv. apply in_add_violations in Hv.
  destruct Hv as [Hv|Hv]; [now left|]. right.
  apply in_flat_map in Hv. destruct Hv as [s [Hs Hv]].
  destruct (set_report_shape repr s v Hv) as [Hin [value [Hk Hm]]].
  exists s, value. repeat split; assumption.
Qed.

Lemma X3_set_checker_over_tree_witness :
  checker_visit Samples.repr (new_checker SetDuplicateItemChecker "W001")
                Samples.inner_set_tree
  = add_violations
      (flat_map (set_report Samples.repr)
                (visited_sets Samples.inner_set_tree))
      (new_checker SetDuplicateItemChecker "W001")
  /\ visited_sets Samples.inner_set_tree = [Samples.outer_set]
  /\ visited_sets Samples.dups_tree = [Samples.dups_set].
Proof.
  split; [|split; reflexivity].
  apply (proj1 (@X3_set_checker_over_tree Samples.repr
                  Samples.inner_set_tree
                  (new_checker SetDuplicateItemChecker "W001") eq_refl)).
Defined.

(** ** Which elements of a set literal count *)

Lemma checker_visit_Set_report (repr : constant -> string) n self :
  kind n = Set_ -> cls self = SetDuplicateItemChecker ->
  checker_visit repr self n = add_violations (set_report repr n) self.
Proof.
  intros Hk Hc. rewrite (checker_visit_Set repr n self Hk Hc).
  rewrite (visit_Set_loop_flagged repr (children n) [] [] self)
    by reflexivity.
  unfold set_report. now rewrite later_occurrences_flagged.
Qed.

Lemma nth_in_firstn (A : Type) :
  forall (l : list A) i j x,
    nth_error l i = Some x -> i < j -> In x (firstn j l).
Proof.
  induction l as [|a l IH]; intros i j x Hn Hij.
  - destruct i; discriminate.
  - destruct j as [|j]; [lia|]. destruct i as [|i]; cbn in Hn |- *.
    + left. congruence.
    + right. apply (IH i j x Hn). lia.
Qed.

Lemma later_occurrence_in elts j e :
  later_occurrence elts j = true ->
  nth_error elts j = Some e ->
  In e (later_occurrences elts).
Proof.
  intros Hl Hn. unfold later_occurrences. apply in_flat_map. exists j.
  split.
  - apply in_seq. split; [lia|]. cbn.
    apply nth_error_Some. congruence.
  - rewrite Hl, Hn. now left.
Qed.

(** X4.  Two literal constants of one set literal are duplicates as soon as
    their values are equal, whatever kinds of literal they are: the later
    one is reported, with the repr of its own value.  A [bool] and the
    [int] of its value are equal either way round, and so are an [int] and
    the [float] of the same value; a [str] and a [bytes] of the same
    characters are not. *)
Theorem X4_equal_values_across_kinds :
  forall (repr : constant -> string),
    (forall (n : node) (self : Checker) (i j : nat) (ei ej : node)
            (v w : constant),
        kind n = Set_ ->
        cls self = SetDuplicateItemChecker ->
        i < j ->
        nth_error (children n) i = Some ei ->
        nth_error (children n) j = Some ej ->
        kind ei = Constant v ->
        kind ej = Constant w ->
        py_eqb v w = true ->
        reported (mkViolation ej ("Set contains duplicate item: " ++ repr w))
                 (checker_visit repr self n) = true)
    /\ (forall b, py_eqb (CBool b) (CInt (Z.b2z b)) = true
                  /\ py_eqb (CInt (Z.b2z b)) (CBool b) = true)
    /\ (forall z, py_eqb (CInt z) (CFloat (Finite (inject_Z z))) = true
                  /\ py_eqb (CFloat (Finite (inject_Z z))) (CInt z) = true)
    /\ (forall s, py_eqb (CStr s) (CBytes s) = false).
Proof.
  intro repr. split; [|split; [|split]].
  - intros n self i j ei ej v w Hk Hc Hij Hi Hj Hv Hw Heq.
    assert (Hcw : constant_value ej = Some w)
      by (unfold constant_value; now rewrite Hw).
    assert (Hlater : later_occurrence (children n) j = true).
    { unfold later_occurrence. rewrite Hj, Hcw. unfold occurs_among.
      apply existsb_exists. exists ei. split.
      - eapply nth_in_firstn; eassumption.
      - unfold constant_value. now rewrite Hv. }
    rewrite (checker_visit_Set_report repr n self Hk Hc).
    rewrite reported_add_violations. apply orb_true_iff. right.
    apply existsb_exists.
    exists (mkViolation ej ("Set contains duplicate item: " ++ repr w)).
    split; [|apply violation_eqb_refl].
    unfold set_report. apply in_flat_map. exists ej. split.
    + eapply later_occurrence_in; eassumption.
    + unfold duplicate_violation. rewrite Hcw. now left.
  - intros [|]; split; reflexivity.
  - intro z. unfold py_eqb. cbn [numeric pyfloat_eqb].
    rewrite !Qeq_bool_refl. now split.
  - reflexivity.
Qed.

Lemma X4_equal_values_across_kinds_witness :
  reported (mkViolation (Samples.int 4 1 1 7) "Set contains duplicate item: 1")
           (checker_visit Samples.repr
              (new_checker SetDuplicateItemChecker "W001")
              MoreSamples.mixed_set) = true.
Proof.
  apply (proj1 (X4_equal_values_across_kinds Samples.repr)
           MoreSamples.mixed_set (new_checker SetDuplicateItemChecker "W001")
           0 1 (Node 3 (Constant (CBool true)) 1 1 []) (Samples.int 4 1 1 7)
           (CBool true) (CInt 1));
    try reflexivity.
  lia.
Defined.

Lemma occurs_among_constants earlier v :
  occurs_among (filter is_constant earlier) v = occurs_among earlier v.
Proof.
  unfold occurs_among. apply existsb_filter.
  intros a Ha. unfold is_constant. now destruct (constant_value a).
Qed.

Lemma flagged_after_constants :
  forall rest earlier,
    flagged_after earlier rest
    = flagged_after (filter is_constant earlier) (filter is_constant rest).
Proof.
  induction rest as [|e rest IH]; intro earlier; [reflexivity|].
  cbn [flagged_after filter]. rewrite (IH (earlier ++ [e])), filter_app.
  cbn [filter].
  assert (Hc : is_constant e = match constant_value e with
                               | Some _ => true
                               | None => false
                               end) by reflexivity.
  destruct (constant_value e) as [v|] eqn:Hv; rewrite Hc.
  - cbn [flagged_after]. now rewrite Hv, occurs_among_constants.
  - cbn [app]. now rewrite app_nil_r.
Qed.

(** X5.  Elements of a set literal that are not literal constants (names,
    calls, any expression) have no effect on the check: the checker does at
    the set literal exactly what it would do at the same literal with these
    elements left out, so repeated names or expressions are never reported,
    and a set literal without a literal constant leaves the checker as it
    was. *)
Theorem X5_only_constants_count :
  forall (repr : constant -> string) (n : node) (self : Checker),
    kind n = Set_ ->
    cls self = SetDuplicateItemChecker ->
    checker_visit repr self n
    = add_violations
        (flat_map (duplicate_violation repr)
                  (later_occurrences (filter is_constant (children n))))
        self
    /\ (forallb (fun e => negb (is_constant e)) (children n) = true ->
        checker_visit repr self n = self).
Proof.
  intros repr n self Hk Hc.
  assert (Hrun : checker_visit repr self n
                 = add_violations
                     (flat_map (duplicate_violation repr)
                        (later_occurrences
                           (filter is_constant (children n))))
                     self).
  { rewrite (checker_visit_Set_report repr n self Hk Hc). unfold set_report.
    rewrite !later_occurrences_flagged.
    now rewrite (flagged_after_constants (children n) []). }
  split; [exact Hrun|].
  intro Hnone. rewrite Hrun.
  assert (Hempty : filter is_constant (children n) = []).
  { clear Hrun Hk. induction (children n) as [|e l IH]; [reflexivity|].
    cbn [forallb filter] in *. apply andb_true_iff in Hnone.
    destruct Hnone as [He Hl]. apply negb_true_iff in He. rewrite He.
    now apply IH. }
  now rewrite Hempty.
Qed.

Lemma X5_only_constants_count_witness :
  violations (checker_visit Samples.repr
                (new_checker SetDuplicateItemChecker "W001")
                MoreSamples.names_set) = []
  /\ filter is_constant (children MoreSamples.names_set)
     = [Samples.int 5 1 1 7].
Proof.
  split; [|reflexivity].
  rewrite (proj1 (@X5_only_constants_count Samples.repr
                    MoreSamples.names_set
                    (new_checker SetDuplicateItemChecker "W001")
                    eq_refl eq_refl)).
  reflexivity.
Defined.

(** ** What the unused-variable analysis reports *)

(** X6.  Every Violation the analysis of a node builds is about a name that
    is written and never otherwise used in the node's subtree: its message
    is "Unused variable: " and that name, and its node is the first write
    occurrence of the name in the subtree, a Name node in Store context. *)
Theorem X6_unused_reports_sound :
  forall (code : string) (n : node) (v : Violation),
    parsed_shape n ->
    In v (unused_violations (scope_visitor code n)) ->
    exists x,
      message v = ("Unused variable: " ++ x)%string
      /\ first_store x n = Some (v_node v)
      /\ kind (v_node v) = Name x Store
      /\ In (v_node v) (subtree n)
      /\ existsb (uses x) (subtree n) = false.
Proof.
  intros code n v Hp Hv.
  assert (Hmsg : exists x, message v = ("Unused variable: " ++ x)%string).
  { unfold unused_violations in Hv. apply in_flat_map in Hv.
    destruct Hv as [[k b] [_ Hv]]. destruct b; [|destruct Hv].
    destruct (dict_get (name_nodes (scope_visitor code n)) k);
      [|destruct Hv].
    destruct Hv as [<-|[]]. now exists k. }
  destruct Hmsg as [x Hx]. exists x. split; [exact Hx|].
  assert (Hin : In v (filter (fun u => String.eqb (message u)
                                         ("Unused variable: " ++ x))
                             (unused_violations (scope_visitor code n)))).
  { apply filter_In. split; [exact Hv|]. rewrite Hx. apply String.eqb_refl. }
  rewrite (scope_report_about code x Hp) in Hin.
  destruct (existsb (uses x) (subtree n)); [destruct Hin|].
  destruct (existsb (stores x) (subtree n)); [|destruct Hin].
  destruct (first_store x n) as [w|] eqn:Hw; [|destruct Hin].
  destruct Hin as [<-|[]]. cbn [v_node].
  unfold first_store in Hw. apply find_some in Hw. destruct Hw as [Hsub Hst].
  repeat split; try assumption.
  unfold stores in Hst. destruct (kind w) as [ | | | | |y ctx| ];
    try discriminate.
  destruct ctx; try discriminate. apply String.eqb_eq in Hst. now subst.
Qed.

Lemma X6_unused_reports_sound_witness :
  exists x,
    first_store x Samples.unused_def = Some (Samples.name 4 "x" Store 2 4)
    /\ existsb (uses x) (subtree Samples.unused_def) = false.
Proof.
  destruct (@X6_unused_reports_sound "W002" Samples.unused_def
              (mkViolation (Samples.name 4 "x" Store 2 4)
                           "Unused variable: x")
              eq_refl (or_introl eq_refl))
    as [x [_ [Hfirst [_ [_ Hunused]]]]].
  exists x. split; assumption.
Defined.

(** ** A checker over several traversals *)

Lemma checker_visit_report (repr : constant -> string) tree self :
  checker_visit repr self tree
  = add_violations
      (traversal_report repr (cls self) (issue_code self) tree) self.
Proof.
  unfold checker_visit, traversal_report.
  destruct (cls self); cbn [methods_of].
  - apply set_checker_visit.
  - apply unused_variable_visit.
Qed.

Lemma add_violations_grows :
  forall vs self,
    exists added,
      violations (add_violations vs self) = violations self ++ added
      /\ (forall u, In u added -> In u vs /\ reported u self = false).
Proof.
  induction vs as [|v vs IH]; intro self.
  - exists []. split; [cbn; now rewrite app_nil_r|intros u []].
  - change (add_violations (v :: vs) self)
      with (add_violations vs (add_violation v self)).
    destruct (IH (add_violation v self)) as [added [Heq Hnew]].
    destruct (reported v self) eqn:Hv.
    + exists added. split.
      * rewrite Heq. cbn [add_violation violations]. unfold pyset_add.
        unfold reported in Hv. now rewrite Hv.
      * intros u Hu. destruct (Hnew u Hu) as [Hin Hrep].
        split; [now right|].
        rewrite reported_add in Hrep. now apply orb_false_iff in Hrep.
    + exists (v :: added). split.
      * rewrite Heq. cbn [add_violation violations]. unfold pyset_add.
        unfold reported in Hv. rewrite Hv. now rewrite <- app_assoc.
      * intros u [<-|Hu]; [split; [now left|exact Hv]|].
        destruct (Hnew u Hu) as [Hin Hrep]. split; [now right|].
        rewrite reported_add in Hrep. now apply orb_false_iff in Hrep.
Qed.



(** A run of [run] on a source that parses, with the checkers and the
    violations taken in the order the lists hold them. *)
Lemma run_in_order (repr : constant -> string)
      (read_file : string -> option string) (parse : string -> option node)
      (basename : string -> string) (checkers : list Checker)
      (source_path source_file : string) (tree : node) :
  read_file source_path = Some source_file ->
  parse source_file = Some tree ->
  run repr read_file parse basename checkers source_path Returned
      (map (fun c => checker_visit repr c tree) checkers)
      (flat_map (lines_of (basename source_path))
                (map (fun c => checker_visit repr c tree) checkers)).
Proof.
  intros Hread Hparse. eapply run_parsed.
  - exact Hread.
  - exact Hparse.
  - apply Permutation_refl.
  - exact (run_checkers_in repr tree (basename source_path) (fun s => s)
             (@Permutation_refl _) checkers).
Qed.

(** X7.  A traversal only adds to the checker's violations: it leaves the
    class and the issue code alone, keeps every Violation held before, in
    place, and appends Violations that the traversal built and that were
    not in the set. *)
Theorem X7_traversal_only_adds :
  forall (repr : constant -> string) (tree : node) (self : Checker),
    cls (checker_visit repr self tree) = cls self
    /\ issue_code (checker_visit repr self tree) = issue_code self
    /\ exists added,
         violations (checker_visit repr self tree)
         = violations self ++ added
         /\ (forall u,
               In u added ->
               In u (traversal_report repr (cls self) (issue_code self) tree)
               /\ reported u self = false).
Proof.
  intros repr tree self. rewrite (checker_visit_report repr tree self).
  destruct (add_violations_code
              (traversal_report repr (cls self) (issue_code self) tree) self)
    as [Hcode Hcls].
  split; [exact Hcls|]. split; [exact Hcode|].
  apply add_violations_grows.
Qed.



(** X9.  [run] prints what the checkers hold, not what this run found: a
    Violation that a checker of the linter already holds when [run] is
    called is printed again by a run that parses its source, as a line
    under the name of the file of this run. *)
Theorem X9_held_violations_printed_again :
  forall (repr : constant -> string) (read_file : string -> option string)
         (parse : string -> option node) (basename : string -> string)
         (checkers checkers' : list Checker) (source_path : string)
         (out : list string) (checker : Checker) (v : Violation),
    run repr read_file parse basename checkers source_path
        Returned checkers' out ->
    In checker checkers ->
    In v (violations checker) ->
    In (basename source_path ++ ":" ++ str_of_nat (lineno (v_node v)) ++ ":"
          ++ str_of_nat (col_offset (v_node v)) ++ ": "
          ++ issue_code checker ++ ": " ++ message v)%string
       out.
Proof.
  intros repr read_file parse basename checkers checkers' source_path out
         checker v Hrun Hc Hv.
  inversion Hrun as [| |src tree order cs' o Hr Hp Ho Hcs]; subst.
  destruct (run_checkers_output Hcs) as [-> Hout].
  apply (Permutation_in _ (Permutation_sym Hout)).
  apply in_flat_map. exists (checker_visit repr checker tree). split.
  - apply (in_map (fun c => checker_visit repr c tree)).
    unfold pyset_iter in Ho. now apply (Permutation_in _ Ho).
  - unfold lines_of.
    rewrite (checker_visit_report repr tree checker).
    set (vs := traversal_report repr (cls checker) (issue_code checker) tree).
    destruct (add_violations_grows vs checker) as [added [Heq _]].
    destruct (add_violations_code vs checker) as [Hcode _].
    apply in_map_iff. exists v. split.
    + unfold format_line. now rewrite Hcode.
    + rewrite Heq. apply in_or_app. now left.
Qed.

Lemma X9_held_violations_printed_again_witness :
  In "module.py:3:2: W001: Set contains duplicate item: 7"
     (flat_map (lines_of "module.py")
        (map (fun c => checker_visit Samples.repr c Samples.module_tree)
             [MoreSamples.used_checker])).
Proof.
  apply (@X9_held_violations_printed_again Samples.repr Samples.read_file
           Samples.parse Samples.basename [MoreSamples.used_checker]
           (map (fun c => checker_visit Samples.repr c Samples.module_tree)
                [MoreSamples.used_checker])
           "src/module.py"
           (flat_map (lines_of "module.py")
              (map (fun c => checker_visit Samples.repr c Samples.module_tree)
                   [MoreSamples.used_checker]))
           MoreSamples.used_checker MoreSamples.stale).
  - exact (@run_in_order Samples.repr Samples.read_file Samples.parse
             Samples.basename [MoreSamples.used_checker] "src/module.py"
             Samples.module_source Samples.module_tree eq_refl eq_refl).
  - now left.
  - now left.
Defined.

(** ** One name, two nested scopes *)

Lemma scope_report_has code n x w :
  parsed_shape n ->
  first_store x n = Some w ->
  existsb (uses x) (subtree n) = false ->
  In (mkViolation w ("Unused variable: " ++ x))
     (unused_violations (scope_visitor code n)).
Proof.
  intros Hp Hw Hu.
  assert (Hs : existsb (stores x) (subtree n) = true).
  { unfold first_store in Hw. apply find_some in Hw.
    apply existsb_exists. exists w. exact Hw. }
  assert (Hin : In (mkViolation w ("Unused variable: " ++ x))
                   (filter (fun v => String.eqb (message v)
                                       ("Unused variable: " ++ x))
                           (unused_violations (scope_visitor code n)))).
  { rewrite (scope_report_about code x Hp), Hu, Hs, Hw. now left. }
  now apply filter_In in Hin.
Qed.

Lemma scope_is_analysed tree s :
  In s (subtree tree) -> is_scope s = true -> In s (analysed_nodes tree).
Proof.
  intros Hs Hscope. apply filter_In. split; [exact Hs|].
  unfold is_scope in Hscope. unfold triggers, class_name.
  destruct (kind s); try discriminate; reflexivity.
Qed.

(** X10.  When a name is written only inside a nested scope and never read,
    the tracker of the inner scope and the tracker of the enclosing scope
    both build a Violation for it, on the same first write and with the same
    message, and the checker's set keeps one entry for the two. *)
Theorem X10_nested_scopes_one_entry :
  forall (repr : constant -> string) (tree : node) (self : Checker)
         (outer inner w : node) (x : string),
    cls self = Unused_Variable_Checker ->
    parsed_shape tree ->
    pyset_ok violation_eqb (violations self) = true ->
    In outer (subtree tree) ->
    is_scope outer = true ->
    In inner (subtree outer) ->
    is_scope inner = true ->
    first_store x outer = Some w ->
    first_store x inner = Some w ->
    existsb (uses x) (subtree outer) = false ->
    let unused := mkViolation w ("Unused variable: " ++ x) in
    In outer (analysed_nodes tree)
    /\ In inner (analysed_nodes tree)
    /\ In unused (unused_violations (scope_visitor (issue_code self) outer))
    /\ In unused (unused_violations (scope_visitor (issue_code self) inner))
    /\ List.length
         (filter (fun e => violation_eqb e unused)
                 (violations (checker_visit repr self tree))) = 1.
Proof.
  intros repr tree self outer inner w x Hc Hp Hok Houter Hso Hinner Hsi
         Hwo Hwi Hu unused.
  assert (Hinner_tree : In inner (subtree tree))
    by (eapply subtree_trans; eassumption).
  assert (Hpo : parsed_shape outer)
    by (eapply parsed_shape_subtree; eassumption).
  assert (Hpi : parsed_shape inner)
    by (eapply parsed_shape_subtree; eassumption).
  assert (Hui : existsb (uses x) (subtree inner) = false).
  { apply not_true_is_false. intro H. apply existsb_exists in H.
    destruct H as [m [Hm Hum]].
    assert (Hex : existsb (uses x) (subtree outer) = true).
    { apply existsb_exists. exists m. split; [|exact Hum].
      eapply subtree_trans; eassumption. }
    congruence. }
  assert (Hao : In outer (analysed_nodes tree))
    by (now apply scope_is_analysed).
  assert (Hro : In unused
                   (unused_violations (scope_visitor (issue_code self) outer)))
    by (now apply scope_report_has).
  split; [exact Hao|]. split; [now apply scope_is_analysed|].
  split; [exact Hro|]. split; [now apply scope_report_has|].
  apply pyset_ok_count.
  - now apply checker_visit_ok.
  - change (reported unused (checker_visit repr self tree) = true).
    unfold checker_visit. rewrite Hc. cbn [methods_of].
    rewrite unused_variable_visit, reported_add_violations.
    apply orb_true_iff. right. apply existsb_exists.
    exists unused. split; [|apply violation_eqb_refl].
    apply in_flat_map. exists outer. split; assumption.
Qed.

Lemma X10_nested_scopes_one_entry_witness :
  let unused := mkViolation MoreSamples.inner_write "Unused variable: x" in
  In unused (unused_violations (scope_visitor "W002" MoreSamples.outer_def))
  /\ In unused (unused_violations (scope_visitor "W002" MoreSamples.inner_def))
  /\ List.length
       (filter (fun e => violation_eqb e unused)
               (violations
                  (checker_visit Samples.repr
                     (new_checker Unused_Variable_Checker "W002")
                     MoreSamples.inner_only_tree))) = 1.
Proof.
  intro unused.
  destruct (@X10_nested_scopes_one_entry Samples.repr
              MoreSamples.inner_only_tree
              (new_checker Unused_Variable_Checker "W002")
              MoreSamples.outer_def MoreSamples.inner_def
              MoreSamples.inner_write "x"
              eq_refl eq_refl eq_refl
              (or_intror (or_introl eq_refl)) eq_refl
              ltac:(cbn; tauto) eq_refl eq_refl eq_refl eq_refl)
    as [_ [_ [Ho [Hi Hcount]]]].
  split; [exact Ho|]. split; [exact Hi|exact Hcount].
Defined.

Lemma X7_traversal_only_adds_witness :
  exists added,
    violations (checker_visit Samples.repr MoreSamples.used_checker
                  Samples.dups_tree)
    = [MoreSamples.stale] ++ added
    /\ (forall u, In u added -> reported u MoreSamples.used_checker = false).
Proof.
  destruct (X7_traversal_only_adds Samples.repr Samples.dups_tree
              MoreSamples.used_checker)
    as [_ [_ [added [Heq Hnew]]]].
  exists added. split; [exact Heq|].
  intros u Hu. apply (Hnew u Hu).
Defined.
